(** * etl_flow: the ingestion pipeline over an embedded relational store

    A shallow embedding of [etl_flow/etl_job.py] and of the store manager of
    [etl_flow/helper_functions/helper_functions.py].  Python code that
    threads exceptions and mutable objects (files, database files, open
    connections, the global log) is written in a state-and-exception monad
    over an explicit [world]. *)

From stdpp Require Import base strings list gmap fin_maps infinite.
From Stdlib Require Import ZArith Ascii.

Open Scope string_scope.
Open Scope Z_scope.

(** ** Python values *)

(** What [json.loads] builds.  A [dict] keeps its items in insertion order,
    which for a parsed document is the order of the members in the text.
    Floating-point numbers are left out. *)
#[local] Unset Elimination Schemes.
Inductive pyval : Type :=
| PNone
| PBool (b : bool)
| PInt (z : Z)
| PStr (s : string)
| PList (l : list pyval)
| PDict (d : list (string * pyval)).
#[local] Set Elimination Schemes.

(** The bytes of a file or of a storage object, represented by what
    [json.loads] makes of them. *)
Inductive content : Type :=
| Unparsable
| Json (v : pyval).

(** Exception classes the modelled code can raise.  All of them derive from
    [Exception], hence every [except Exception] clause catches them. *)
Inductive exn : Type :=
| AttributeError
| TypeError
| OverflowError
| FileNotFoundError
| JSONDecodeError
| ValidationError
| OperationalError
| IntegrityError
| ProgrammingError
| HttpResponseError
| ValueError.

Global Instance exn_eq_dec : EqDecision exn.
Proof. solve_decision. Defined.

Definition exn_name (e : exn) : string :=
  match e with
  | AttributeError => "AttributeError"
  | TypeError => "TypeError"
  | OverflowError => "OverflowError"
  | FileNotFoundError => "FileNotFoundError"
  | JSONDecodeError => "JSONDecodeError"
  | ValidationError => "ValidationError"
  | OperationalError => "OperationalError"
  | IntegrityError => "IntegrityError"
  | ProgrammingError => "ProgrammingError"
  | HttpResponseError => "HttpResponseError"
  | ValueError => "ValueError"
  end.

Inductive result (A : Type) : Type :=
| Ok (a : A)
| Raise (e : exn).
Arguments Ok {A} a.
Arguments Raise {A} e.

(** [d.get(k, default)] on a value: only a [dict] has the method. *)
Fixpoint dict_lookup (k : string) (d : list (string * pyval)) : option pyval :=
  match d with
  | [] => None
  | (k', v) :: d' => if String.eqb k k' then Some v else dict_lookup k d'
  end.

Definition py_get (v : pyval) (k : string) (default : pyval) : result pyval :=
  match v with
  | PDict d => Ok (match dict_lookup k d with Some x => x | None => default end)
  | _ => Raise AttributeError
  end.

(** [row.values()]: the values of a [dict] in item order. *)
Definition py_values (v : pyval) : result (list pyval) :=
  match v with
  | PDict d => Ok (map snd d)
  | _ => Raise AttributeError
  end.

Fixpoint chars (s : string) : list pyval :=
  match s with
  | EmptyString => []
  | String a s' => PStr (String a EmptyString) :: chars s'
  end.

(** What a [for] loop iterates over: the elements of a list, the keys of a
    dict, the characters of a string; other values are not iterable. *)
Definition py_iter (v : pyval) : result (list pyval) :=
  match v with
  | PList l => Ok l
  | PDict d => Ok (map (fun kv => PStr (fst kv)) d)
  | PStr s => Ok (chars s)
  | _ => Raise TypeError
  end.

(** ** The embedded relational store *)

Inductive sqlval : Type :=
| SNull
| SInt (z : Z)
| SText (s : string).

Global Instance sqlval_eq_dec : EqDecision sqlval.
Proof. solve_decision. Defined.

(** A stored row: the table's columns, in declaration order, with their
    values.  Column type affinity is not modelled: a value is stored as it
    was bound. *)
Definition row : Type := list (string * sqlval).

Fixpoint row_get (c : string) (r : row) : sqlval :=
  match r with
  | [] => SNull
  | (c', v) :: r' => if String.eqb c c' then v else row_get c r'
  end.

Inductive fk_action : Type :=
| NoAction
| Restrict
| SetNull
| SetDefault
| Cascade.

Global Instance fk_action_eq_dec : EqDecision fk_action.
Proof. solve_decision. Defined.

Record foreign_key : Type := {
  fk_col : string;
  fk_table : string;
  fk_ref : string;
  fk_on_delete : fk_action
}.

Record table_def : Type := {
  t_cols : list string;
  t_pk : list string;
  t_fks : list foreign_key
}.

Inductive schema_object : Type :=
| Table (def : table_def) (rows : list row)
| Index (on_table : string) (cols : list string).

Inductive journal : Type :=
| JournalDelete
| JournalWal.

(** A database file: the catalogue (tables and indices live in one name
    space) and the persistent journal mode. *)
Record database : Type := {
  objects : gmap string schema_object;
  journal_mode : journal
}.

Definition empty_db : database :=
  {| objects := ∅; journal_mode := JournalDelete |}.

Definition set_objects (o : gmap string schema_object) (d : database) : database :=
  {| objects := o; journal_mode := journal_mode d |}.

Definition set_journal (j : journal) (d : database) : database :=
  {| objects := objects d; journal_mode := j |}.

Definition table_rows (t : string) (d : database) : list row :=
  match objects d !! t with
  | Some (Table _ rows) => rows
  | _ => []
  end.

(** *** Schema statements *)

Inductive ddl : Type :=
| CreateTable (if_not_exists : bool) (name : string) (def : table_def)
| CreateIndex (if_not_exists : bool) (name : string) (on_table : string)
    (cols : list string).

Definition has_cols (cols : list string) (def : table_def) : bool :=
  forallb (fun c => bool_decide (c ∈ t_cols def)) cols.

Definition exec_ddl (s : ddl) (d : database) : result database :=
  match s with
  | CreateTable ine n def =>
      match objects d !! n with
      | None => Ok (set_objects (<[n := Table def []]> (objects d)) d)
      | Some (Table _ _) => if ine then Ok d else Raise OperationalError
      | Some (Index _ _) => Raise OperationalError
      end
  | CreateIndex ine n t cols =>
      match objects d !! n with
      | Some (Table _ _) => Raise OperationalError
      | Some (Index _ _) => if ine then Ok d else Raise OperationalError
      | None =>
          match objects d !! t with
          | Some (Table def _) =>
              if has_cols cols def
              then Ok (set_objects (<[n := Index t cols]> (objects d)) d)
              else Raise OperationalError
          | _ => Raise OperationalError
          end
      end
  end.

(** *** Row insertion *)

(** [INSERT INTO into (columns) VALUES (?, ..., ?)], one placeholder per
    listed column. *)
Record insert_stmt : Type := {
  into : string;
  columns : list string
}.

(** How the sqlite3 module adapts a Python value to a bound parameter. *)
Definition adapt (v : pyval) : result sqlval :=
  match v with
  | PNone => Ok SNull
  | PBool b => Ok (SInt (if b then 1 else 0))
  | PInt z =>
      if (- 2 ^ 63 <=? z) && (z <? 2 ^ 63) then Ok (SInt z) else Raise OverflowError
  | PStr s => Ok (SText s)
  | PList _ => Raise ProgrammingError
  | PDict _ => Raise ProgrammingError
  end.

Fixpoint adapt_all (vs : list pyval) : result (list sqlval) :=
  match vs with
  | [] => Ok []
  | v :: vs' =>
      match adapt v with
      | Raise e => Raise e
      | Ok x =>
          match adapt_all vs' with
          | Raise e => Raise e
          | Ok xs => Ok (x :: xs)
          end
      end
  end.

(** The i-th bound value goes to the i-th listed column; a column of the
    table that the statement does not list is NULL. *)
Fixpoint bound_value (c : string) (cols : list string) (vals : list sqlval) : sqlval :=
  match cols, vals with
  | c' :: cols', v :: vals' => if String.eqb c c' then v else bound_value c cols' vals'
  | _, _ => SNull
  end.

Definition new_row (def : table_def) (cols : list string) (vals : list sqlval) : row :=
  map (fun c => (c, bound_value c cols vals)) (t_cols def).

Definition key_of (cols : list string) (r : row) : list sqlval :=
  map (fun c => row_get c r) cols.

Definition has_null (k : list sqlval) : bool :=
  existsb (fun v => bool_decide (v = SNull)) k.

(** Primary-key uniqueness; a key with a NULL component never conflicts. *)
Definition pk_conflict (def : table_def) (r : row) (rows : list row) : bool :=
  match t_pk def with
  | [] => false
  | pk =>
      negb (has_null (key_of pk r))
      && existsb (fun r' => bool_decide (key_of pk r' = key_of pk r)) rows
  end.

Definition fk_satisfied (d : database) (r : row) (fk : foreign_key) : bool :=
  let v := row_get (fk_col fk) r in
  bool_decide (v = SNull)
  || existsb (fun r' => bool_decide (row_get (fk_ref fk) r' = v))
       (table_rows (fk_table fk) d).

Definition fks_satisfied (d : database) (def : table_def) (r : row) : bool :=
  forallb (fk_satisfied d r) (t_fks def).

(** One execution of an insert statement with its parameters, against the
    working copy of a connection whose [foreign_keys] pragma is [fk]. *)
Definition sql_insert (fk : bool) (s : insert_stmt) (params : list pyval)
    (d : database) : result database :=
  match objects d !! into s with
  | Some (Table def rows) =>
      if negb (has_cols (columns s) def) then Raise OperationalError
      else if negb (Nat.eqb (length params) (length (columns s)))
      then Raise ProgrammingError
      else
        match adapt_all params with
        | Raise e => Raise e
        | Ok vals =>
            let r := new_row def (columns s) vals in
            if pk_conflict def r rows then Raise IntegrityError
            else if fk && negb (fks_satisfied d def r) then Raise IntegrityError
            else Ok (set_objects (<[into s := Table def (rows ++ [r])]> (objects d)) d)
        end
  | _ => Raise OperationalError
  end.

(** ** The world the pipeline runs in *)

(** What reading a storage object yields: the request may fail, the stream
    may break while it is read, or the bytes arrive. *)
Inductive download : Type :=
| DownloadFails
| ReadFails
| Data (c : content).

Record blob : Type := {
  b_name : string;
  b_creation_time : Z;
  b_body : download
}.

(** A container client: the objects of the container in listing order, or
    [None] when the listing request fails. *)
Record container_client : Type := {
  cc_blobs : option (list blob)
}.

Inductive sync_mode : Type :=
| SyncFull
| SyncNormal.

Inductive temp_store : Type :=
| TempDefault
| TempMemory.

(** An open sqlite3 connection.  [c_db] is the connection's view of the
    database including its uncommitted changes; the three pragmas are
    scoped to the connection and start from the library defaults. *)
Record connection : Type := {
  c_path : string;
  c_db : database;
  c_foreign_keys : bool;
  c_synchronous : sync_mode;
  c_temp_store : temp_store
}.

Definition set_c_db (d : database) (c : connection) : connection :=
  {| c_path := c_path c; c_db := d; c_foreign_keys := c_foreign_keys c;
     c_synchronous := c_synchronous c; c_temp_store := c_temp_store c |}.

Definition set_c_foreign_keys (b : bool) (c : connection) : connection :=
  {| c_path := c_path c; c_db := c_db c; c_foreign_keys := b;
     c_synchronous := c_synchronous c; c_temp_store := c_temp_store c |}.

Definition set_c_synchronous (m : sync_mode) (c : connection) : connection :=
  {| c_path := c_path c; c_db := c_db c; c_foreign_keys := c_foreign_keys c;
     c_synchronous := m; c_temp_store := c_temp_store c |}.

Definition set_c_temp_store (m : temp_store) (c : connection) : connection :=
  {| c_path := c_path c; c_db := c_db c; c_foreign_keys := c_foreign_keys c;
     c_synchronous := c_synchronous c; c_temp_store := m |}.

(** Entries that the [log_this] decorator writes to the global log. *)
Inductive log_entry : Type :=
| Calling (f : string)
| Returned (f : string)
| Failed (f : string) (e : exn).

Global Instance log_entry_eq_dec : EqDecision log_entry.
Proof. solve_decision. Defined.

(** - [files]: local files, temporary files included, by path;
    - [dbs]: the committed contents of the database files, by path;
    - [unopenable]: paths at which sqlite3 cannot open or create a file;
    - [conns]: the connections that are open, by handle;
    - [log]: the global log, oldest entry first;
    - [account]: what the configuration and the environment variables
      designate, that is the outcome of the URL and credential handling of
      [connect_to_storage_account]. *)
Record world : Type := {
  files : gmap string content;
  dbs : gmap string database;
  unopenable : gset string;
  conns : gmap nat connection;
  log : list log_entry;
  account : result container_client
}.

Definition set_files (f : gmap string content) (w : world) : world :=
  {| files := f; dbs := dbs w; unopenable := unopenable w; conns := conns w;
     log := log w; account := account w |}.

Definition set_dbs (d : gmap string database) (w : world) : world :=
  {| files := files w; dbs := d; unopenable := unopenable w; conns := conns w;
     log := log w; account := account w |}.

Definition set_conns (c : gmap nat connection) (w : world) : world :=
  {| files := files w; dbs := dbs w; unopenable := unopenable w; conns := c;
     log := log w; account := account w |}.

Definition set_log (l : list log_entry) (w : world) : world :=
  {| files := files w; dbs := dbs w; unopenable := unopenable w; conns := conns w;
     log := l; account := account w |}.

(** The database stored at a path.  A path without a file and a path with a
    file that sqlite3 has just created both hold the empty database. *)
Definition store (w : world) (p : string) : database :=
  default empty_db (dbs w !! p).

(** ** The state-and-exception monad *)

Definition M (A : Type) : Type := world -> result A * world.

Global Instance M_ret : MRet M := fun A a w => (Ok a, w).

Global Instance M_bind : MBind M := fun A B f m w =>
  match m w with
  | (Ok a, w') => f a w'
  | (Raise e, w') => (Raise e, w')
  end.

Definition raise {A : Type} (e : exn) : M A := fun w => (Raise e, w).

Definition lift {A : Type} (r : result A) : M A := fun w => (r, w).

Definition get_world : M world := fun w => (Ok w, w).

(** [try: m  except Exception as e: h e] *)
Definition try_except {A : Type} (m : M A) (h : exn -> M A) : M A := fun w =>
  match m w with
  | (Ok a, w') => (Ok a, w')
  | (Raise e, w') => h e w'
  end.

(** [try: m  finally: fin]; an exception of [fin] replaces the outcome. *)
Definition try_finally {A : Type} (m : M A) (fin : M unit) : M A := fun w =>
  match m w with
  | (r, w') =>
      match fin w' with
      | (Ok _, w'') => (r, w'')
      | (Raise e, w'') => (Raise e, w'')
      end
  end.

(** [for x in l: body x] *)
Fixpoint for_each {A : Type} (l : list A) (body : A -> M unit) : M unit :=
  match l with
  | [] => mret tt
  | x :: l' => body x;; for_each l' body
  end.

Definition add_log (e : log_entry) : M unit := fun w =>
  (Ok tt, set_log (log w ++ [e]) w).

(** The decorator of [logs/global_logging.py]: it logs the call, then the
    return or the exception, and lets the exception pass. *)
Definition log_this {A : Type} (f : string) (m : M A) : M A :=
  add_log (Calling f);;
  try_except
    (result ← m; add_log (Returned f);; mret result)
    (fun e => add_log (Failed f e);; raise e).

(** ** Files *)

(** [open(path, "r")] followed by [read()]. *)
Definition read_file (p : string) : M content := fun w =>
  match files w !! p with
  | Some c => (Ok c, w)
  | None => (Raise FileNotFoundError, w)
  end.

Definition json_loads (c : content) : M pyval :=
  match c with
  | Json v => mret v
  | Unparsable => raise JSONDecodeError
  end.

(** [tempfile.NamedTemporaryFile(delete=False)]: a new, empty file under a
    name that no file has. *)
Definition NamedTemporaryFile : M string := fun w =>
  let name := fresh (dom (files w)) in
  (Ok name, set_files (<[name := Unparsable]> (files w)) w).

Definition write_file (p : string) (c : content) : M unit := fun w =>
  (Ok tt, set_files (<[p := c]> (files w)) w).

(** ** sqlite3 connections *)

(** [sqlite3.connect(path)]: opens the file, creating it when it is
    missing.  The new connection has the library defaults, among them
    [foreign_keys] off. *)
Definition sqlite3_connect (p : string) : M nat := fun w =>
  if decide (p ∈ unopenable w) then (Raise OperationalError, w)
  else
    let con := fresh (dom (conns w)) in
    let d := store w p in
    (Ok con,
     set_conns (<[con := {| c_path := p; c_db := d; c_foreign_keys := false;
                            c_synchronous := SyncFull;
                            c_temp_store := TempDefault |}]> (conns w))
       (set_dbs (<[p := d]> (dbs w)) w)).

(** An operation on an open connection; on a closed one the module raises
    [ProgrammingError]. *)
Definition with_con {A : Type} (con : nat) (f : connection -> M A) : M A := fun w =>
  match conns w !! con with
  | Some c => f c w
  | None => (Raise ProgrammingError, w)
  end.

Definition put_con (con : nat) (c : connection) : M unit := fun w =>
  (Ok tt, set_conns (<[con := c]> (conns w)) w).

Definition put_db (p : string) (d : database) : M unit := fun w =>
  (Ok tt, set_dbs (<[p := d]> (dbs w)) w).

(** [con.execute(insert_statement, params)]: the row goes to the
    connection's open transaction. *)
Definition con_execute (con : nat) (s : insert_stmt) (params : list pyval) : M unit :=
  with_con con (fun c =>
    d ← lift (sql_insert (c_foreign_keys c) s params (c_db c));
    put_con con (set_c_db d c)).

Definition con_commit (con : nat) : M unit :=
  with_con con (fun c => put_db (c_path c) (c_db c)).

Definition con_rollback (con : nat) : M unit :=
  with_con con (fun c =>
    w ← get_world;
    put_con con (set_c_db (store w (c_path c)) c)).

(** Closing drops whatever the connection has not committed. *)
Definition con_close (con : nat) : M unit := fun w =>
  (Ok tt, set_conns (delete con (conns w)) w).

Definition pragma_foreign_keys (con : nat) (on : bool) : M unit :=
  with_con con (fun c => put_con con (set_c_foreign_keys on c)).

(** The journal mode is a property of the file and takes effect at once. *)
Definition pragma_journal_mode (con : nat) (j : journal) : M unit :=
  with_con con (fun c =>
    w ← get_world;
    put_con con (set_c_db (set_journal j (c_db c)) c);;
    put_db (c_path c) (set_journal j (store w (c_path c)))).

Definition pragma_synchronous (con : nat) (m : sync_mode) : M unit :=
  with_con con (fun c => put_con con (set_c_synchronous m c)).

Definition pragma_temp_store (con : nat) (m : temp_store) : M unit :=
  with_con con (fun c => put_con con (set_c_temp_store m c)).

(** One statement of a script, in autocommit mode. *)
Definition script_step (con : nat) (s : ddl) : M unit :=
  with_con con (fun c =>
    d ← lift (exec_ddl s (c_db c));
    put_con con (set_c_db d c);;
    put_db (c_path c) d).

(** [con.executescript(script)]: commits what is pending, then runs the
    statements one by one, each committed as it completes. *)
Definition con_executescript (con : nat) (script : list ddl) : M unit :=
  con_commit con;;
  for_each script (script_step con).

(** ** Object storage *)

Definition list_blobs (cc : container_client) (name_starts_with : string) : M (list blob) :=
  match cc_blobs cc with
  | Some bs => mret (filter (fun b => String.prefix name_starts_with (b_name b) = true) bs)
  | None => raise HttpResponseError
  end.

(** [max(blobs, key=lambda b: b.creation_time, default=None)]: a later
    element replaces the current maximum only when its key is strictly
    greater. *)
Fixpoint max_from (best : blob) (l : list blob) : blob :=
  match l with
  | [] => best
  | b :: l' =>
      max_from (if b_creation_time best <? b_creation_time b then b else best) l'
  end.

Definition py_max (l : list blob) : option blob :=
  match l with
  | [] => None
  | b :: l' => Some (max_from b l')
  end.

(** [latest_blob.name]; [None] has no such attribute. *)
Definition attr_name (b : option blob) : M string :=
  match b with
  | Some b => mret (b_name b)
  | None => raise AttributeError
  end.

(** [get_blob_client(name).download_blob()]: the request for the object of
    that name. *)
Definition download_blob (cc : container_client) (name : string) : M download :=
  match cc_blobs cc with
  | Some bs =>
      match find (fun b => String.eqb (b_name b) name) bs with
      | Some b =>
          match b_body b with
          | DownloadFails => raise HttpResponseError
          | body => mret body
          end
      | None => raise HttpResponseError
      end
  | None => raise HttpResponseError
  end.

Definition readall (stream : download) : M content :=
  match stream with
  | Data c => mret c
  | _ => raise HttpResponseError
  end.

(** ** The pipeline of [etl_job.py] and the store manager *)

(** The functions print and return messages; the model keeps their text
    without the decorative mark that the source puts in front. *)

(** The documents that ship with the package and are not part of the
    sources at hand are parameters: the SQL of [yaml/sql.yaml], and the
    structural contract of [json/schema.json] as the predicate that
    [jsonschema.validate] decides for it. *)
Record sql_statements : Type := {
  schema_sql : list ddl;
  insert_sessions : insert_stmt;
  insert_events : insert_stmt;
  insert_event_parents : insert_stmt
}.

Section Pipeline.

Variable sql_yaml : sql_statements.
Variable schema_accepts : pyval -> bool.

(** [etl_job.load_yaml], decorated with [log_this]. *)
Definition load_yaml {A : Type} (document : A) : M A :=
  log_this "load_yaml" (mret document).

Definition connect_to_storage_account : M container_client :=
  log_this "connect_to_storage_account"
    (load_yaml tt;;
     w ← get_world;
     lift (account w)).

Definition download_latest_json (container_client : container_client) : M string :=
  log_this "download_latest_json"
    (try_except
       (blobs ← list_blobs container_client "backup_";
        let latest_blob := py_max blobs in
        name ← attr_name latest_blob;
        download_stream ← download_blob container_client name;
        tmp_file ← NamedTemporaryFile;
        data ← readall download_stream;
        write_file tmp_file data;;
        mret tmp_file)
       (fun e => raise e)).

Definition jsonschema_validate (instance : pyval) : M unit :=
  if schema_accepts instance then mret tt else raise ValidationError.

Definition validate_json_string (json_file_path : string) : M string :=
  log_this "validate_json_string"
    (json_string ← read_file json_file_path;
     data ← json_loads json_string;
     try_except (jsonschema_validate data) (fun e => raise e);;
     mret "Json validation successful.").

Definition insert_to_db (json_file_path table_name : string)
    (insert_statement : insert_stmt) (db_path : string) : M string :=
  log_this "insert_to_db"
    (con ← sqlite3_connect db_path;
     try_finally
       (try_except
          (json_data ← read_file json_file_path;
           data ← json_loads json_data;
           rows ← lift (py_get data table_name (PList []));
           rows ← lift (py_iter rows);
           for_each rows (fun row =>
             params ← lift (py_values row);
             con_execute con insert_statement params);;
           con_commit con;;
           mret ("Data inserted successfully to " ++ table_name ++ "."))
          (fun e => con_rollback con;; raise e))
       (con_close con)).

Definition run_job (db_path : string) : M string :=
  log_this "run_job"
    (try_except
       (sql_statements ← load_yaml sql_yaml;
        container_client ← connect_to_storage_account;
        json_file_path ← download_latest_json container_client;
        validate_json_string json_file_path;;
        insert_to_db json_file_path "sessions"
          (insert_sessions sql_statements) db_path;;
        insert_to_db json_file_path "events"
          (insert_events sql_statements) db_path;;
        insert_to_db json_file_path "event_parents"
          (insert_event_parents sql_statements) db_path;;
        mret "Job ran successfully.")
       (fun e => raise e)).

(** [helper_functions.create_db].  [os.makedirs] is reached only once the
    connection is open, so the directory is there and the call has no
    effect. *)
Definition create_db (db_path : string) (ensure_wal : bool) : M unit :=
  let sql_statements := sql_yaml in
  con ← sqlite3_connect db_path;
  pragma_foreign_keys con true;;
  try_finally
    (try_except
       ((if ensure_wal
         then
           pragma_journal_mode con JournalWal;;
           pragma_synchronous con SyncNormal;;
           pragma_temp_store con TempMemory
         else mret tt);;
        con_executescript con (schema_sql sql_statements);;
        con_commit con)
       (fun e => raise e))
    (con_close con).

End Pipeline.

(** ** Deleting an event, with its referential actions *)

Fixpoint row_set (c : string) (v : sqlval) (r : row) : row :=
  match r with
  | [] => []
  | (c', v') :: r' =>
      if String.eqb c c' then (c', v) :: r' else (c', v') :: row_set c v r'
  end.

(** [WHERE col = ?]: NULL equals nothing. *)
Definition matches (col : string) (v : sqlval) (r : row) : bool :=
  negb (bool_decide (v = SNull)) && bool_decide (row_get col r = v).

(** Whether row [r] of a child table refers, through [fk], to one of the
    deleted rows of the parent table. *)
Definition refers_to (deleted : list row) (fk : foreign_key) (r : row) : bool :=
  existsb (fun p => matches (fk_col fk) (row_get (fk_ref fk) p) r) deleted.

Definition targets (parent : string) (fk : foreign_key) : bool :=
  String.eqb (fk_table fk) parent.

Definition blocked_by (a : fk_action) (deleted : list row) (parent : string)
    (fks : list foreign_key) (rows : list row) : bool :=
  existsb (fun fk =>
    targets parent fk && bool_decide (fk_on_delete fk = a)
    && existsb (refers_to deleted fk) rows) fks.

Fixpoint propagate (deleted : list row) (parent : string)
    (fks : list foreign_key) (rows : list row) : list row :=
  match fks with
  | [] => rows
  | fk :: fks' =>
      let rows' :=
        if targets parent fk then
          match fk_on_delete fk with
          | Cascade => filter (fun r => refers_to deleted fk r = false) rows
          | SetNull | SetDefault =>
              map (fun r => if refers_to deleted fk r
                            then row_set (fk_col fk) SNull r else r) rows
          | NoAction | Restrict => rows
          end
        else rows in
      propagate deleted parent fks' rows'
  end.

(** Modelled from the spec: the schema text of [yaml/sql.yaml] is missing,
    so the effect of a parent-row deletion on a child table follows the
    spec's data model (section 3, invariant 3) and the semantics of the
    five referential actions a foreign key can declare: RESTRICT refuses
    at once, CASCADE removes the referring rows, SET NULL and SET DEFAULT
    (no column of the layout declares a default) blank the referring
    column, NO ACTION refuses if a referring row is left when the statement
    ends. *)
Definition on_parent_delete (deleted : list row) (parent : string)
    (fks : list foreign_key) (rows : list row) : option (list row) :=
  if blocked_by Restrict deleted parent fks rows then None
  else
    let rows' := propagate deleted parent fks rows in
    if blocked_by NoAction deleted parent fks rows' then None else Some rows'.

(** Modelled from the spec: [DELETE FROM events WHERE id = ?] as issued by
    [test_event_parents_foreign_keys], on a connection whose [foreign_keys]
    pragma is [fk].  In the persisted layout of the spec (section 6)
    [event_parents] is the only table that references [events]. *)
Definition delete_event (fk : bool) (id : sqlval) (d : database) : result database :=
  match objects d !! "events" with
  | Some (Table edef evs) =>
      let deleted := filter (fun r => matches "id" id r = true) evs in
      let kept := filter (fun r => matches "id" id r = false) evs in
      let d1 := set_objects (<["events" := Table edef kept]> (objects d)) d in
      match objects d !! "event_parents" with
      | Some (Table pdef edges) =>
          if fk then
            match on_parent_delete deleted "events" (t_fks pdef) edges with
            | Some edges' =>
                Ok (set_objects
                      (<["event_parents" := Table pdef edges']> (objects d1)) d1)
            | None => Raise IntegrityError
            end
          else Ok d1
      | _ => Ok d1
      end
  | _ => Raise OperationalError
  end.

(** ** The package documents, modelled from the spec *)

(** Modelled from the spec: the three tables of the persisted store layout
    (section 6), whose declarations in [yaml/sql.yaml] are missing.  Each
    has the columns, the primary key and the references that the layout
    lists; the reference of an event to its session declares no action. *)
Definition sessions_def : table_def :=
  {| t_cols := ["id"; "start_ts"; "metadata"]; t_pk := ["id"]; t_fks := [] |}.

Definition events_def : table_def :=
  {| t_cols := ["id"; "ts"; "session_id"; "seq"; "kind"; "actor"; "payload";
                "text"; "metrics"];
     t_pk := ["id"];
     t_fks := [ {| fk_col := "session_id"; fk_table := "sessions";
                   fk_ref := "id"; fk_on_delete := NoAction |} ] |}.

Definition event_parents_def (on_child_delete : fk_action) : table_def :=
  {| t_cols := ["child_id"; "parent_id"];
     t_pk := ["child_id"; "parent_id"];
     t_fks := [ {| fk_col := "child_id"; fk_table := "events";
                   fk_ref := "id"; fk_on_delete := on_child_delete |};
                {| fk_col := "parent_id"; fk_table := "events";
                   fk_ref := "id"; fk_on_delete := Cascade |} ] |}.

(** Modelled from the spec: the content of [yaml/sql.yaml], which is
    missing.  The layout is the persisted store layout of section 6, the
    statements create what is absent and leave what exists (section 4.5),
    the index names are those [test_indices_exist] asks for, and the
    parameter order of the three inserts is the order of the tuples that
    [insert_mock_data] passes to them.  A deletion of a parent event
    cascades to its edges (section 3, invariant 3); what a deletion does to
    the edges naming the event as child is left open by the spec and is the
    parameter [on_child_delete]. *)
Definition spec_sql (on_child_delete : fk_action) : sql_statements :=
  {| schema_sql :=
       [ CreateTable true "sessions" sessions_def;
         CreateTable true "events" events_def;
         CreateTable true "event_parents" (event_parents_def on_child_delete);
         CreateIndex true "events_session_ts" "events" ["session_id"; "ts"];
         CreateIndex true "events_session_kind" "events" ["session_id"; "kind"] ];
     insert_sessions :=
       {| into := "sessions"; columns := t_cols sessions_def |};
     insert_events :=
       {| into := "events"; columns := t_cols events_def |};
     insert_event_parents :=
       {| into := "event_parents"; columns := ["child_id"; "parent_id"] |} |}.

Definition is_str (v : pyval) : bool :=
  match v with PStr _ => true | _ => false end.

Definition is_int (v : pyval) : bool :=
  match v with PInt _ => true | _ => false end.

Definition is_kind (v : pyval) : bool :=
  match v with
  | PStr k => String.eqb k "user_prompt" || String.eqb k "assistant_out"
  | _ => false
  end.

Definition any_value (v : pyval) : bool := true.

Definition row_conforms (fields : list (string * (pyval -> bool))) (r : pyval) : bool :=
  match r with
  | PDict d =>
      forallb (fun f =>
        match dict_lookup (fst f) d with
        | Some v => snd f v
        | None => false
        end) fields
  | _ => false
  end.

Definition table_conforms (data : list (string * pyval)) (t : string)
    (fields : list (string * (pyval -> bool))) : bool :=
  match dict_lookup t data with
  | Some (PList rows) => forallb (row_conforms fields) rows
  | _ => false
  end.

(** Modelled from the spec: the structural contract of [json/schema.json],
    which is missing.  Following section 4.3 it asks for the three tables,
    for each row's required fields with their types, and for an enumerated
    event kind; the opaque blobs of section 3 may hold any value. *)
Definition spec_contract (v : pyval) : bool :=
  match v with
  | PDict data =>
      table_conforms data "sessions"
        [("id", is_str); ("start_ts", is_str); ("metadata", any_value)]
      && table_conforms data "events"
        [("id", is_str); ("ts", is_str); ("session_id", is_str);
         ("seq", is_int); ("kind", is_kind); ("actor", is_str);
         ("payload", any_value); ("text", is_str); ("metrics", any_value)]
      && table_conforms data "event_parents"
        [("child_id", is_str); ("parent_id", is_str)]
  | _ => false
  end.

(** ** Sample snapshots and worlds *)

Definition session_row (id : string) : pyval :=
  PDict [("id", PStr id); ("start_ts", PStr "2024-01-02T00:00:00");
         ("metadata", PStr "{}")].

Definition event_row (id session kind actor : string) : pyval :=
  PDict [("id", PStr id); ("ts", PStr "2024-01-02T00:01:00");
         ("session_id", PStr session); ("seq", PInt 1); ("kind", PStr kind);
         ("actor", PStr actor); ("payload", PStr "{}"); ("text", PStr "Hello");
         ("metrics", PStr "{}")].

Definition edge_row (child parent : string) : pyval :=
  PDict [("child_id", PStr child); ("parent_id", PStr parent)].

Definition snapshot (sessions events edges : list pyval) : pyval :=
  PDict [("sessions", PList sessions); ("events", PList events);
         ("event_parents", PList edges)].

(** One session with a prompt, its reply and the edge between them. *)
Definition snapshot_ok : pyval :=
  snapshot [session_row "s1"]
    [event_row "e1" "s1" "user_prompt" "User";
     event_row "e2" "s1" "assistant_out" "Assistant"]
    [edge_row "e2" "e1"].

(** The same, with the edge listed twice: the second edge row violates the
    primary key of [event_parents]. *)
Definition snapshot_dup_edge : pyval :=
  snapshot [session_row "s1"]
    [event_row "e1" "s1" "user_prompt" "User";
     event_row "e2" "s1" "assistant_out" "Assistant"]
    [edge_row "e2" "e1"; edge_row "e2" "e1"].

(** An event of a session that the snapshot does not have. *)
Definition snapshot_dangling : pyval :=
  snapshot [] [event_row "e1" "s-missing" "user_prompt" "User"] [].

(** Structurally broken: an event without its kind. *)
Definition snapshot_invalid : pyval :=
  snapshot [session_row "s1"]
    [PDict [("id", PStr "e1"); ("session_id", PStr "s1")]] [].

Definition backup (name : string) (created : Z) (v : pyval) : blob :=
  {| b_name := name; b_creation_time := created; b_body := Data (Json v) |}.

Definition world_with (bs : list blob) : world :=
  {| files := ∅; dbs := ∅; unopenable := ∅; conns := ∅; log := [];
     account := Ok {| cc_blobs := Some bs |} |}.

(** The world after [create_db "local.db"] in one where the container holds
    the given objects. *)
Definition initialized (bs : list blob) : world :=
  snd (create_db (spec_sql Cascade) "local.db" true (world_with bs)).

Definition backup_0101 : blob :=
  backup "backup_20240101T000000" 20240101000000 snapshot_invalid.

Definition backup_0102 : blob :=
  backup "backup_20240102T000000" 20240102000000 snapshot_ok.

(** An object of the earlier name with the later creation time: the name
    is given by whoever uploads the object ([to_storage_account] takes it
    from the local clock), the creation time by the service. *)
Definition backup_0101_rewritten : blob :=
  backup "backup_20240101T000000" 20240105000000 snapshot_invalid.

Definition count (t : string) (w : world) : nat :=
  length (table_rows t (store w "local.db")).

(** ** What one call of [insert_to_db] computes *)

(** The rows a call iterates over: the file is read and parsed, the table's
    entry is taken from the document, and the loop asks it for its
    elements. *)
Definition staged_rows (c : option content) (t : string) : result (list pyval) :=
  match c with
  | None => Raise FileNotFoundError
  | Some Unparsable => Raise JSONDecodeError
  | Some (Json v) =>
      match py_get v t (PList []) with
      | Ok rows => py_iter rows
      | Raise e => Raise e
      end
  end.

(** The loop over the rows, on the working copy of the connection. *)
Fixpoint load_rows (fk : bool) (s : insert_stmt) (rows : list pyval)
    (d : database) : result database :=
  match rows with
  | [] => Ok d
  | r :: rows' =>
      match py_values r with
      | Raise e => Raise e
      | Ok params =>
          match sql_insert fk s params d with
          | Raise e => Raise e
          | Ok d' => load_rows fk s rows' d'
          end
      end
  end.

(** The database that a call commits, or the exception it ends with.  The
    connection is a fresh one, so its [foreign_keys] pragma is off. *)
Definition insert_outcome (c : option content) (t : string) (s : insert_stmt)
    (d : database) : result database :=
  match staged_rows c t with
  | Raise e => Raise e
  | Ok rows => load_rows false s rows d
  end.

(** A world in which connection [con] is open with state [c]. *)
Definition with_conn (base : world) (con : nat) (c : connection) : world :=
  set_conns (<[con := c]> (conns base)) base.

(** The entries a run has added to the log. *)
Definition trace (w w' : world) : list log_entry :=
  drop (length (log w)) (log w').

Definition logged (es : list log_entry) (w : world) : world :=
  set_log (log w ++ es) w.

(** ** What the other stages compute *)

Definition outcome_entry {A : Type} (f : string) (r : result A) : log_entry :=
  match r with
  | Ok _ => Returned f
  | Raise e => Failed f e
  end.

(** What [download_latest_json] obtains from the storage before it touches
    the local disk: the stream of the selected object, or the exception of
    the listing, of the selection or of the request. *)
Definition locate (cc : container_client) : result download :=
  match cc_blobs cc with
  | None => Raise HttpResponseError
  | Some bs =>
      match py_max (filter (fun b => String.prefix "backup_" (b_name b) = true) bs) with
      | None => Raise AttributeError
      | Some latest =>
          match find (fun b => String.eqb (b_name b) (b_name latest)) bs with
          | Some b =>
              match b_body b with
              | DownloadFails => Raise HttpResponseError
              | body => Ok body
              end
          | None => Raise HttpResponseError
          end
      end
  end.

Definition validation_outcome (schema_accepts : pyval -> bool)
    (c : option content) : result string :=
  match c with
  | None => Raise FileNotFoundError
  | Some Unparsable => Raise JSONDecodeError
  | Some (Json v) =>
      if schema_accepts v then Ok "Json validation successful."
      else Raise ValidationError
  end.

(** A script on a database: the outcome, and the database reached, which
    keeps the statements that completed before a failure. *)
Fixpoint run_script (script : list ddl) (d : database) : result unit * database :=
  match script with
  | [] => (Ok tt, d)
  | s :: script' =>
      match exec_ddl s d with
      | Ok d' => run_script script' d'
      | Raise e => (Raise e, d)
      end
  end.

Definition if_not_exists (s : ddl) : bool :=
  match s with
  | CreateTable ine _ _ => ine
  | CreateIndex ine _ _ _ => ine
  end.

(** The object a statement asks for is in the catalogue. *)
Definition provided (d : database) (s : ddl) : Prop :=
  match s with
  | CreateTable _ n _ => exists def rows, objects d !! n = Some (Table def rows)
  | CreateIndex _ n _ _ => exists t cols, objects d !! n = Some (Index t cols)
  end.

(** A world in which the local file [snapshot.json] holds document [v]. *)
Definition staged (v : pyval) (w : world) : world :=
  set_files (<["snapshot.json" := Json v]> (files w)) w.

Definition backup_dup : blob :=
  backup "backup_20240103T000000" 20240103000000 snapshot_dup_edge.

Definition backup_dangling : blob :=
  backup "backup_20240104T000000" 20240104000000 snapshot_dangling.

(** A run of the job against the initialized store [local.db], with the
    package documents modelled from the spec and a container that holds
    the given objects. *)
Abbreviation sample_run bs :=
  (run_job (spec_sql Cascade) spec_contract "local.db" (initialized bs)).

(** The table of [test_insert_to_db], [CREATE TABLE test_table (id INTEGER,
    name TEXT)], and a document whose rows list the fields in the other
    order than the statement lists its columns.  The declared types are not
    part of the model, which stores a value as it is bound; SQLite does the
    same, in a column of either type, with text that is no number, and the
    rows of the document hold such text only. *)
Definition test_table_def : table_def :=
  {| t_cols := ["id"; "name"]; t_pk := []; t_fks := [] |}.

Definition test_insert : insert_stmt :=
  {| into := "test_table"; columns := ["id"; "name"] |}.

Definition test_world : world :=
  {| files := {[ "data.json" :=
                   Json (PDict [("test_table",
                     PList [PDict [("name", PStr "Alice"); ("id", PStr "u1")];
                            PDict [("name", PStr "Bob"); ("id", PStr "u2")]])]) ]};
     dbs := {[ "test.db" :=
                 {| objects := {[ "test_table" := Table test_table_def [] ]};
                    journal_mode := JournalDelete |} ]};
     unopenable := ∅; conns := ∅; log := []; account := Raise ValueError |}.

(** A conversation of three turns: the reply [e2] is the child of the prompt
    [e1] and the parent of the follow-up [e3]. *)
Definition snapshot_chain : pyval :=
  snapshot [session_row "s1"]
    [event_row "e1" "s1" "user_prompt" "User";
     event_row "e2" "s1" "assistant_out" "Assistant";
     event_row "e3" "s1" "user_prompt" "User"]
    [edge_row "e2" "e1"; edge_row "e3" "e2"].

Definition backup_chain : blob :=
  backup "backup_20240105T000000" 20240105000000 snapshot_chain.

(** The store after initialization and one run over [snapshot_chain], for a
    schema whose child-side referential action is [on_child_delete]. *)
Definition chain_store (on_child_delete : fk_action) : database :=
  store
    (snd (run_job (spec_sql on_child_delete) spec_contract "local.db"
            (snd (create_db (spec_sql on_child_delete) "local.db" true
                    (world_with [backup_chain])))))
    "local.db".

(** The edge rows left by the deletion of event [id], if it is accepted. *)
Definition edges_after_delete (id : string) (d : database) : option (list row) :=
  match delete_event true (SText id) d with
  | Ok d' => Some (table_rows "event_parents" d')
  | Raise _ => None
  end.

Definition stored_edge (child parent : sqlval) : row :=
  [("child_id", child); ("parent_id", parent)].

(** ** More of the store manager of [helper_functions.py] *)

(** [os.path.exists]: a database file or any other local file. *)
Definition os_path_exists (p : string) : M bool := fun w =>
  (Ok (bool_decide (is_Some (dbs w !! p)) || bool_decide (is_Some (files w !! p))),
   w).

(** [os.remove]; a path without a file raises. *)
Definition os_remove (p : string) : M unit := fun w =>
  if bool_decide (is_Some (dbs w !! p)) || bool_decide (is_Some (files w !! p))
  then (Ok tt, set_files (delete p (files w)) (set_dbs (delete p (dbs w)) w))
  else (Raise FileNotFoundError, w).

Definition remove_db (db_path : string) : M unit :=
  try_except
    (os_path_exists db_path ≫= fun there : bool =>
     if there then os_remove db_path else mret tt)
    (fun e => raise e).

(** [DELETE FROM t;] without enforcement of foreign keys: every row of the
    table goes, and nothing else changes. *)
Definition sql_delete_all (t : string) (d : database) : result database :=
  match objects d !! t with
  | Some (Table def _) => Ok (set_objects (<[t := Table def []]> (objects d)) d)
  | _ => Raise OperationalError
  end.

(** The statement as [truncate_db] issues it, on the connection that it
    has just opened, where [foreign_keys] is off: no referential check or
    action takes place.  The deletion joins the open transaction. *)
Definition con_delete_all (con : nat) (t : string) : M unit :=
  with_con con (fun c =>
    d ← lift (sql_delete_all t (c_db c));
    put_con con (set_c_db d c)).

(** How a call of the store manager ends.  [truncate_db] binds its variable
    [con] inside the [try] block and closes it in the [finally] block; when
    [sqlite3.connect] raises, the variable is unbound there and it is the
    [UnboundLocalError] of the [finally] block that the caller gets, in
    place of the exception of the connection. *)
Inductive ending : Type :=
| Done
| Propagated (e : exn)
| UnboundLocalError.

Definition ending_of (r : result unit) : ending :=
  match r with
  | Ok _ => Done
  | Raise e => Propagated e
  end.

Definition truncate_db (db_path : string) : world -> ending * world := fun w =>
  match sqlite3_connect db_path w with
  | (Raise _, w1) => (UnboundLocalError, w1)
  | (Ok con, w1) =>
      match try_finally
              (try_except
                 (con_delete_all con "event_parents";;
                  con_delete_all con "events";;
                  con_delete_all con "sessions";;
                  con_commit con;;
                  con_close con)
                 (fun e => raise e))
              (con_close con) w1 with
      | (r, w2) => (ending_of r, w2)
      end
  end.

(** The tables that [truncate_db] empties, in the order of its statements. *)
Definition truncated_tables : list string := ["event_parents"; "events"; "sessions"].

(** What the three deletions make of a database. *)
Definition truncated (d : database) : result database :=
  match sql_delete_all "event_parents" d with
  | Raise e => Raise e
  | Ok d1 =>
      match sql_delete_all "events" d1 with
      | Raise e => Raise e
      | Ok d2 => sql_delete_all "sessions" d2
      end
  end.

Definition is_table (t : string) (d : database) : bool :=
  match objects d !! t with
  | Some (Table _ _) => true
  | _ => false
  end.

(** A schema object without its rows. *)
Definition emptied (o : option schema_object) : option schema_object :=
  match o with
  | Some (Table def _) => Some (Table def [])
  | _ => o
  end.

(** The store of a completed run without its [sessions] table. *)
Definition without_sessions : world :=
  let w := snd (sample_run [backup_0102]) in
  set_dbs
    (<["local.db" := set_objects (delete "sessions" (objects (store w "local.db")))
                       (store w "local.db")]> (dbs w)) w.

(** *** Dumping the tables *)

Definition py_of_sql (v : sqlval) : pyval :=
  match v with
  | SNull => PNone
  | SInt z => PInt z
  | SText s => PStr s
  end.

(** [SELECT * FROM t;]: the column names of the cursor description and the
    rows as tuples of values in column order. *)
Definition select_all (t : string) (d : database)
    : result (list string * list (list sqlval)) :=
  match objects d !! t with
  | Some (Table def rows) =>
      Ok (t_cols def, map (fun r => map (fun c => row_get c r) (t_cols def)) rows)
  | _ => Raise OperationalError
  end.

Definition con_select_all (con : nat) (t : string)
    : M (list string * list (list sqlval)) :=
  with_con con (fun c => lift (select_all t (c_db c))).

(** [dict(zip(columns, row))]; the column names of a table are distinct. *)
Definition zip_dict (columns : list string) (r : list sqlval) : pyval :=
  PDict (zip columns (map py_of_sql r)).

(** [d[k] = v]: the value of an existing key is replaced in place, a new
    key goes to the end. *)
Fixpoint dict_set (k : string) (v : pyval) (d : list (string * pyval))
    : list (string * pyval) :=
  match d with
  | [] => [(k, v)]
  | (k', v') :: d' =>
      if String.eqb k k' then (k', v) :: d' else (k', v') :: dict_set k v d'
  end.

(** The loop of [dump_json] over the table names. *)
Fixpoint dump_tables (con : nat) (tables : list string)
    (dump_data : list (string * pyval)) : M (list (string * pyval)) :=
  match tables with
  | [] => mret dump_data
  | table :: tables' =>
      selected ← con_select_all con table;
      dump_tables con tables'
        (dict_set table
           (PList (map (zip_dict (fst selected)) (snd selected))) dump_data)
  end.

(** [dump_json].  The text that [json.dumps] writes parses back to the
    dumped value: the values are integers, strings and [None].  The suffix
    of the temporary file's name is not modelled. *)
Definition dump_json (con : nat) : M string :=
  try_except
    (dump_data ← dump_tables con ["sessions"; "events"; "event_parents"] [];
     tmp_file ← NamedTemporaryFile;
     write_file tmp_file (Json (PDict dump_data));;
     mret tmp_file)
    (fun e => raise e).

(** The document that [dump_json] writes for a database. *)
Definition dump_document (d : database) : result pyval :=
  match select_all "sessions" d with
  | Raise e => Raise e
  | Ok s =>
      match select_all "events" d with
      | Raise e => Raise e
      | Ok e =>
          match select_all "event_parents" d with
          | Raise e => Raise e
          | Ok p =>
              Ok (PDict [("sessions", PList (map (zip_dict (fst s)) (snd s)));
                         ("events", PList (map (zip_dict (fst e)) (snd e)));
                         ("event_parents", PList (map (zip_dict (fst p)) (snd p)))])
          end
      end
  end.

(** A completed run, a second store with the schema and no rows, and a
    connection to the first store. *)
Definition dumping_world : world :=
  snd (sqlite3_connect "local.db"
         (snd (create_db (spec_sql Cascade) "copy.db" false
                 (snd (sample_run [backup_0102]))))).

(** *** Container URLs *)

(** The parts of a URL that [urllib.parse.urlparse] returns and that the
    code reads. *)
Record parsed_url : Type := {
  scheme : string;
  netloc : string;
  path : string;
  query : string
}.

(** [s.split(sep)] for a separator of one character. *)
Fixpoint split_on (sep : Ascii.ascii) (s : string) : list string :=
  match s with
  | EmptyString => [EmptyString]
  | String a s' =>
      if Ascii.eqb a sep then EmptyString :: split_on sep s'
      else
        match split_on sep s' with
        | [] => [String a EmptyString]
        | p :: ps => String a p :: ps
        end
  end.

Definition nonempty (s : string) : bool :=
  match s with
  | EmptyString => false
  | String _ _ => true
  end.

Section ContainerUrl.

(** The library function is a parameter.  It raises on some malformed
    URLs ([ValueError] for an unmatched bracket in the host, for one); the
    call is outside any [try], so its exception is the function's. *)
Variable urlparse : string -> result parsed_url.

(** [parse_container_url]: the account URL, the container name and the
    SAS, which is [None] when the URL has no query. *)
Definition parse_container_url (container_url : string)
    : result (string * string * option string) :=
  if negb (nonempty container_url) then Raise ValueError
  else
    match urlparse container_url with
    | Raise e => Raise e
    | Ok u =>
        if negb (nonempty (scheme u)) || negb (nonempty (netloc u))
        then Raise ValueError
        else
          let parts := List.filter nonempty (split_on "/"%char (path u)) in
          match parts with
          | [] => Raise ValueError
          | container_name :: _ =>
              let account_url := scheme u ++ "://" ++ netloc u in
              let sas := if nonempty (query u) then Some (query u) else None in
              Ok (account_url, container_name, sas)
          end
    end.

End ContainerUrl.

(** ** Invariants of a stored table *)

(** The stored row that a row of a document becomes in the table of
    statement [s]. *)
Definition stored_row (d : database) (s : insert_stmt) (doc_row : pyval)
    : option row :=
  match objects d !! into s, py_values doc_row with
  | Some (Table def _), Ok params =>
      match adapt_all params with
      | Ok vals => Some (new_row def (columns s) vals)
      | Raise _ => None
      end
  | _, _ => None
  end.

(** No two rows share a primary key without NULL. *)
Definition keys_unique (def : table_def) (rows : list row) : Prop :=
  match t_pk def with
  | [] => True
  | pk => NoDup (List.filter (fun k => negb (has_null k)) (map (key_of pk) rows))
  end.

(** Every row lists the columns of the table, in their order. *)
Definition rows_shaped (def : table_def) (rows : list row) : Prop :=
  Forall (fun r => map fst r = t_cols def) rows.

(** Every integer fits the 64 bits of the store. *)
Definition storable (v : sqlval) : bool :=
  match v with
  | SInt z => (- 2 ^ 63 <=? z) && (z <? 2 ^ 63)
  | _ => true
  end.

Definition rows_storable (rows : list row) : Prop :=
  Forall (fun r => Forall (fun cv => storable (snd cv) = true) r) rows.

(** ** Basic facts about the monad and the world *)

Lemma world_eq (w1 w2 : world) :
  files w1 = files w2 -> dbs w1 = dbs w2 -> unopenable w1 = unopenable w2 ->
  conns w1 = conns w2 -> log w1 = log w2 -> account w1 = account w2 ->
  w1 = w2.
Proof.
  destruct w1, w2; simpl; intros; subst; reflexivity.
Qed.

Lemma bind_run {A B : Type} (m : M A) (f : A -> M B) (w : world) :
  (m ≫= f) w =
  match m w with
  | (Ok a, w') => f a w'
  | (Raise e, w') => (Raise e, w')
  end.
Proof. reflexivity. Qed.

Lemma log_this_run {A : Type} (f : string) (m : M A) (w : world) :
  log_this f m w =
  match m (logged [Calling f] w) with
  | (Ok a, w') => (Ok a, logged [Returned f] w')
  | (Raise e, w') => (Raise e, logged [Failed f e] w')
  end.
Proof.
  unfold log_this, try_except, add_log, logged. rewrite bind_run. simpl.
  rewrite bind_run.
  destruct (m _) as [[a|e] w']; reflexivity.
Qed.

Lemma reraise_run {A : Type} (m : M A) (w : world) :
  try_except m (fun e => raise e) w = m w.
Proof.
  unfold try_except, raise. destruct (m w) as [[a|e] w']; reflexivity.
Qed.

Lemma logged_logged (es1 es2 : list log_entry) (w : world) :
  logged es2 (logged es1 w) = logged (es1 ++ es2) w.
Proof.
  unfold logged, set_log. simpl. rewrite <- app_assoc. reflexivity.
Qed.

(** ** One connection at work *)

Lemma with_conn_lookup (base : world) (con : nat) (c : connection) :
  conns (with_conn base con c) !! con = Some c.
Proof. unfold with_conn. simpl. apply lookup_insert_eq. Qed.

Lemma with_conn_put (base : world) (con : nat) (c c' : connection) :
  put_con con c' (with_conn base con c) = (Ok tt, with_conn base con c').
Proof.
  unfold put_con, with_conn, set_conns. simpl. rewrite insert_insert_eq. reflexivity.
Qed.

Lemma with_con_run {A : Type} (base : world) (con : nat) (c : connection)
    (f : connection -> M A) :
  with_con con f (with_conn base con c) = f c (with_conn base con c).
Proof. unfold with_con. rewrite with_conn_lookup. reflexivity. Qed.

Lemma con_execute_run (base : world) (con : nat) (c : connection)
    (s : insert_stmt) (params : list pyval) :
  con_execute con s params (with_conn base con c) =
  match sql_insert (c_foreign_keys c) s params (c_db c) with
  | Ok d => (Ok tt, with_conn base con (set_c_db d c))
  | Raise e => (Raise e, with_conn base con c)
  end.
Proof.
  unfold con_execute. rewrite with_con_run, bind_run. unfold lift.
  destruct (sql_insert _ _ _ _); [apply with_conn_put | reflexivity].
Qed.

Lemma set_c_db_same (c : connection) : set_c_db (c_db c) c = c.
Proof. destruct c; reflexivity. Qed.

(** The loop of [insert_to_db] follows [load_rows] on the working copy; when
    a row fails the copy keeps the rows inserted before it. *)
Lemma insert_loop_run (base : world) (con : nat) (s : insert_stmt)
    (rows : list pyval) (c : connection) :
  exists d'' : database,
    for_each rows (fun row =>
      params ← lift (py_values row); con_execute con s params)
      (with_conn base con c)
    = (match load_rows (c_foreign_keys c) s rows (c_db c) with
       | Ok _ => Ok tt
       | Raise e => Raise e
       end,
       with_conn base con (set_c_db d'' c))
    /\ (forall d', load_rows (c_foreign_keys c) s rows (c_db c) = Ok d' -> d'' = d').
Proof.
  revert c. induction rows as [|r rows IH]; intros c.
  - exists (c_db c). simpl. rewrite set_c_db_same. split; [reflexivity|].
    intros d' [= <-]. reflexivity.
  - simpl. rewrite bind_run, bind_run. unfold lift at 1.
    destruct (py_values r) as [params|e].
    + rewrite con_execute_run.
      destruct (sql_insert _ _ _ _) as [d1|e].
      * destruct (IH (set_c_db d1 c)) as (d'' & Hrun & Hd). simpl in *.
        exists d''. rewrite Hrun. split; [reflexivity | exact Hd].
      * exists (c_db c). rewrite set_c_db_same. split; [reflexivity | discriminate].
    + exists (c_db c). rewrite set_c_db_same. split; [reflexivity | discriminate].
Qed.

Lemma fresh_conn (w : world) : conns w !! fresh (dom (conns w)) = None.
Proof. apply not_elem_of_dom, is_fresh. Qed.

Lemma close_with_conn (base : world) (con : nat) (c : connection) :
  conns base !! con = None ->
  con_close con (with_conn base con c) = (Ok tt, set_conns (conns base) base).
Proof.
  intros H. unfold con_close, with_conn, set_conns. simpl.
  rewrite delete_insert_eq, delete_id by exact H. reflexivity.
Qed.

Lemma commit_with_conn (base : world) (con : nat) (c : connection) :
  con_commit con (with_conn base con c) =
  (Ok tt, with_conn (set_dbs (<[c_path c := c_db c]> (dbs base)) base) con c).
Proof. unfold con_commit. rewrite with_con_run. reflexivity. Qed.

Lemma rollback_with_conn (base : world) (con : nat) (c : connection) :
  con_rollback con (with_conn base con c) =
  (Ok tt, with_conn base con (set_c_db (store base (c_path c)) c)).
Proof.
  unfold con_rollback. rewrite with_con_run, bind_run. unfold get_world.
  apply with_conn_put.
Qed.

(** The exact effect of one call of [insert_to_db]: it commits the outcome
    of [insert_outcome], or raises and leaves the committed database as it
    was; either way the connection it opened is gone. *)
Lemma insert_to_db_run (p t : string) (s : insert_stmt) (db : string) (w : world) :
  insert_to_db p t s db w =
  if decide (db ∈ unopenable w)
  then (Raise OperationalError,
        logged [Calling "insert_to_db"; Failed "insert_to_db" OperationalError] w)
  else
    match insert_outcome (files w !! p) t s (store w db) with
    | Ok d' =>
        (Ok ("Data inserted successfully to " ++ t ++ "."),
         logged [Calling "insert_to_db"; Returned "insert_to_db"]
           (set_dbs (<[db := d']> (dbs w)) w))
    | Raise e =>
        (Raise e,
         logged [Calling "insert_to_db"; Failed "insert_to_db" e]
           (set_dbs (<[db := store w db]> (dbs w)) w))
    end.
Proof.
  unfold insert_to_db. rewrite log_this_run, bind_run.
  unfold sqlite3_connect. simpl unopenable.
  destruct (decide (db ∈ unopenable w)) as [Hu|Hu].
  { rewrite logged_logged. reflexivity. }
  set (base := set_dbs (<[db := store w db]> (dbs w)) (logged [Calling "insert_to_db"] w)).
  set (con := fresh (dom (conns w))).
  set (c0 := {| c_path := db; c_db := store w db; c_foreign_keys := false;
                c_synchronous := SyncFull; c_temp_store := TempDefault |}).
  change (set_conns _ _) with (with_conn base con c0).
  change (fresh (dom (conns (logged _ w)))) with con.
  assert (Hfresh : conns base !! con = None) by exact (fresh_conn w).
  assert (Hfail : forall (c : connection) (e : exn) (m : M string),
    m (with_conn base con c0) = (Raise e, with_conn base con c) ->
    (let (r, w') :=
       try_finally (try_except m (fun e => con_rollback con;; raise e))
         (con_close con) (with_conn base con c0) in
     match r with
     | Ok a => (Ok a, logged [Returned "insert_to_db"] w')
     | Raise e => (Raise e, logged [Failed "insert_to_db" e] w')
     end)
    = (Raise e, logged [Calling "insert_to_db"; Failed "insert_to_db" e]
                  (set_dbs (<[db := store w db]> (dbs w)) w))).
  { intros c e m Hm. unfold try_finally, try_except. rewrite Hm.
    rewrite bind_run, rollback_with_conn. unfold raise.
    rewrite close_with_conn by exact Hfresh.
    f_equal. apply world_eq; try reflexivity.
    simpl. rewrite <- app_assoc. reflexivity. }
  unfold insert_outcome, staged_rows.
  destruct (files w !! p) as [[|v]|] eqn:Hf.
  - apply (Hfail c0). rewrite bind_run. unfold read_file.
    change (files (with_conn base con c0)) with (files w). rewrite Hf. reflexivity.
  - destruct (py_get v t (PList [])) as [rows|e] eqn:Hg.
    2:{ apply (Hfail c0). rewrite bind_run. unfold read_file.
        change (files (with_conn base con c0)) with (files w). rewrite Hf.
        rewrite bind_run. simpl. rewrite bind_run. unfold lift. rewrite Hg. reflexivity. }
    destruct (py_iter rows) as [rs|e] eqn:Hi.
    2:{ apply (Hfail c0). rewrite bind_run. unfold read_file.
        change (files (with_conn base con c0)) with (files w). rewrite Hf.
        rewrite bind_run. simpl. rewrite bind_run. unfold lift at 1. rewrite Hg.
        rewrite bind_run. unfold lift. rewrite Hi. reflexivity. }
    destruct (insert_loop_run base con s rs c0) as (d'' & Hloop & Hd).
    change (c_foreign_keys c0) with false in *. change (c_db c0) with (store w db) in *.
    destruct (load_rows false s rs (store w db)) as [d'|e] eqn:Hl.
    2:{ apply (Hfail (set_c_db d'' c0)). rewrite bind_run. unfold read_file.
        change (files (with_conn base con c0)) with (files w). rewrite Hf.
        rewrite bind_run. simpl. rewrite bind_run. unfold lift at 1. rewrite Hg.
        rewrite bind_run. unfold lift at 1. rewrite Hi.
        rewrite bind_run, Hloop. reflexivity. }
    rewrite (Hd d' eq_refl) in Hloop.
    unfold try_finally, try_except. rewrite bind_run. unfold read_file.
    change (files (with_conn base con c0)) with (files w). rewrite Hf.
    rewrite bind_run. simpl json_loads. unfold mret at 1, M_ret at 1.
    rewrite bind_run. unfold lift at 1. rewrite Hg.
    rewrite bind_run. unfold lift at 1. rewrite Hi.
    rewrite bind_run, Hloop, bind_run, commit_with_conn.
    unfold mret, M_ret.
    rewrite close_with_conn by exact Hfresh.
    f_equal. apply world_eq; try reflexivity.
    + simpl. apply insert_insert_eq.
    + simpl. rewrite <- app_assoc. reflexivity.
  - apply (Hfail c0). rewrite bind_run. unfold read_file.
    change (files (with_conn base con c0)) with (files w). rewrite Hf. reflexivity.
Qed.

(** ** The stages before the load *)

Ltac same_world :=
  f_equal; apply world_eq; simpl;
  rewrite <- ?app_assoc, ?insert_insert_eq; reflexivity.

Lemma reraise_unfolded {A : Type} (m : M A) (w : world) :
  try_except m (fun e w' => (Raise e, w')) w = m w.
Proof. apply reraise_run. Qed.

Ltac run_monad :=
  repeat first
    [ rewrite bind_run
    | rewrite reraise_run
    | rewrite reraise_unfolded
    | progress unfold raise, mret, M_ret, lift, get_world
    | progress cbv beta iota ].

Lemma load_yaml_run {A : Type} (document : A) (w : world) :
  load_yaml document w =
  (Ok document, logged [Calling "load_yaml"; Returned "load_yaml"] w).
Proof.
  unfold load_yaml. rewrite log_this_run. unfold mret, M_ret.
  rewrite logged_logged. reflexivity.
Qed.

Lemma connect_to_storage_account_run (w : world) :
  connect_to_storage_account w =
  (account w,
   logged [Calling "connect_to_storage_account"; Calling "load_yaml";
           Returned "load_yaml";
           outcome_entry "connect_to_storage_account" (account w)] w).
Proof.
  unfold connect_to_storage_account. rewrite log_this_run, bind_run, load_yaml_run.
  rewrite bind_run. unfold get_world, lift. simpl account.
  destruct (account w) as [cc|e]; rewrite !logged_logged; reflexivity.
Qed.

Lemma download_latest_json_run (cc : container_client) (w : world) :
  download_latest_json cc w =
  let tmp := fresh (dom (files w)) in
  match locate cc with
  | Raise e =>
      (Raise e,
       logged [Calling "download_latest_json"; Failed "download_latest_json" e] w)
  | Ok (Data c) =>
      (Ok tmp,
       logged [Calling "download_latest_json"; Returned "download_latest_json"]
         (set_files (<[tmp := c]> (files w)) w))
  | Ok _ =>
      (Raise HttpResponseError,
       logged [Calling "download_latest_json";
               Failed "download_latest_json" HttpResponseError]
         (set_files (<[tmp := Unparsable]> (files w)) w))
  end.
Proof.
  unfold download_latest_json. rewrite log_this_run, reraise_run, bind_run.
  unfold locate, list_blobs.
  destruct (cc_blobs cc) as [bs|] eqn:Hbs.
  2:{ run_monad. rewrite logged_logged. reflexivity. }
  run_monad.
  destruct (py_max _) as [latest|]; unfold attr_name.
  2:{ run_monad. rewrite logged_logged. reflexivity. }
  run_monad. unfold download_blob. rewrite Hbs.
  destruct (find _ bs) as [b|].
  2:{ run_monad. rewrite logged_logged. reflexivity. }
  destruct (b_body b) as [| |c]; run_monad;
    unfold NamedTemporaryFile, readall, write_file; run_monad; same_world.
Qed.

Lemma validate_json_string_run (schema_accepts : pyval -> bool) (p : string)
    (w : world) :
  validate_json_string schema_accepts p w =
  let r := validation_outcome schema_accepts (files w !! p) in
  (r, logged [Calling "validate_json_string";
              outcome_entry "validate_json_string" r] w).
Proof.
  unfold validate_json_string. rewrite log_this_run, bind_run.
  unfold read_file, validation_outcome. simpl files.
  destruct (files w !! p) as [[|v]|]; unfold json_loads; run_monad;
    try (rewrite logged_logged; reflexivity).
  unfold jsonschema_validate.
  destruct (schema_accepts v); run_monad; rewrite logged_logged; reflexivity.
Qed.

(** ** The load of one table *)

Lemma store_after_reopen (w w' : world) (db : string) :
  dbs w' = <[db := store w db]> (dbs w) -> forall q, store w' q = store w q.
Proof.
  intros H q. unfold store at 1. rewrite H.
  destruct (decide (db = q)) as [->|Hne].
  - rewrite lookup_insert_eq. reflexivity.
  - rewrite lookup_insert_ne by exact Hne. reflexivity.
Qed.

(** C9: each call of [insert_to_db] is atomic for its own table and always
    releases its connection.  For every JSON file, table name, insert
    statement and database path: the connections that are open after the
    call are those that were open before it, on success as on failure; if
    the call raises, the store at every path is what it was before the
    call; and if it returns, the store holds the outcome of inserting all
    the rows. *)
Theorem insert_to_db_atomic_and_closed (p t : string) (s : insert_stmt)
    (db : string) (w : world) :
  let r := fst (insert_to_db p t s db w) in
  let w' := snd (insert_to_db p t s db w) in
  conns w' = conns w
  /\ (forall e, r = Raise e -> forall q, store w' q = store w q)
  /\ (forall msg, r = Ok msg ->
      insert_outcome (files w !! p) t s (store w db) = Ok (store w' db)).
Proof.
  cbv zeta. rewrite insert_to_db_run.
  destruct (decide (db ∈ unopenable w)) as [Hu|Hu].
  { simpl. split; [reflexivity|]. split; [reflexivity | discriminate]. }
  destruct (insert_outcome (files w !! p) t s (store w db)) as [d'|e] eqn:Ho; simpl.
  - split; [reflexivity|]. split; [discriminate|].
    intros _ _. unfold store at 1. simpl. rewrite lookup_insert_eq. reflexivity.
  - split; [reflexivity|]. split; [|discriminate].
    intros _ _. apply (store_after_reopen w _ db). reflexivity.
Qed.

Lemma insert_to_db_atomic_and_closed_witness :
  let w := staged snapshot_dup_edge (initialized []) in
  let run := insert_to_db "snapshot.json" "event_parents"
               (insert_event_parents (spec_sql Cascade)) "local.db" w in
  fst run = Raise IntegrityError
  /\ conns (snd run) = conns w
  /\ forall q, store (snd run) q = store w q.
Proof.
  cbv zeta.
  pose proof (insert_to_db_atomic_and_closed "snapshot.json" "event_parents"
                (insert_event_parents (spec_sql Cascade)) "local.db"
                (staged snapshot_dup_edge (initialized []))) as H.
  cbv zeta in H. destruct H as (Hc & Hr & _).
  split; [vm_compute; reflexivity|].
  split; [exact Hc|].
  apply (Hr IntegrityError). vm_compute. reflexivity.
Defined.

(** ** The whole run *)

Ltac trace_of_run :=
  unfold trace; cbn [log logged set_log set_files set_dbs snd fst];
  rewrite <- ?app_assoc; rewrite drop_app_length; cbn [app outcome_entry].

Ltac project_world :=
  cbn [files dbs unopenable conns account logged set_log set_files set_dbs].

(** One call of [insert_to_db] in the course of a run, by its outcome. *)
Ltac insert_step db Hopen :=
  rewrite insert_to_db_run; project_world;
  rewrite (decide_False (P := db ∈ _)) by exact Hopen;
  unfold store; project_world;
  rewrite ?lookup_insert_eq; cbn [default from_option id];
  match goal with
  | |- context [insert_outcome ?c ?t ?s ?d] =>
      let d' := fresh "d" in
      let e := fresh "e" in
      let H := fresh "Hload" in
      destruct (insert_outcome c t s d) as [d'|e] eqn:H
  end; run_monad.

Lemma not_in_trace (x : log_entry) (l : list log_entry) :
  bool_decide (x ∈ l) = false -> x ∉ l.
Proof. apply bool_decide_eq_false_1. Qed.

(** An entry is not in an explicit trace. *)
Ltac absent := apply not_in_trace; vm_compute; reflexivity.

(** The paths of [run_job]: the stages up to the validation, then the three
    calls of the load. *)
Ltac run_job_paths w accepts db :=
  let P := fresh "P" in
  match goal with
  | |- context [run_job ?sql accepts db w] =>
      pattern (run_job sql accepts db w);
      match goal with |- ?F _ => set (P := F) end
  end;
  unfold run_job; rewrite log_this_run; run_monad;
  rewrite load_yaml_run; run_monad;
  rewrite connect_to_storage_account_run; project_world;
  let cc := fresh "cc" in
  destruct (account w) as [cc|?]; run_monad;
  [ rewrite download_latest_json_run; cbv zeta; project_world;
    let c := fresh "c" in
    destruct (locate cc) as [[| |c]|?] eqn:Hlocate; run_monad;
    [ | |
      rewrite validate_json_string_run; cbv zeta; project_world;
      rewrite lookup_insert_eq;
      let v := fresh "v" in
      destruct c as [|v]; cbn [validation_outcome];
      [ | let Hv := fresh "Hvalid" in
          destruct (accepts v) eqn:Hv ];
      run_monad;
      [ | destruct (decide (db ∈ unopenable w)) as [Hopen|Hopen];
          [ rewrite insert_to_db_run; project_world;
            rewrite (decide_True (P := db ∈ _)) by exact Hopen; run_monad
          | insert_step db Hopen;
            [ insert_step db Hopen; [ insert_step db Hopen | ] | ] ]
        | ]
    | ]
  | ];
  subst P; cbv beta.

Lemma in_trace (x : log_entry) (l : list log_entry) :
  bool_decide (x ∈ l) = true -> x ∈ l.
Proof. apply bool_decide_eq_true_1. Qed.

(** C5: for every run in which the validation stage fails on the staged
    snapshot, the load stage is never invoked ([insert_to_db] is not called
    during the run) and the store is unchanged by the run, so the row counts
    of every table, the three of the layout among them, are what they
    were. *)
Theorem failed_validation_never_reaches_load (sql : sql_statements)
    (accepts : pyval -> bool) (db : string) (w : world) :
  let w' := snd (run_job sql accepts db w) in
  (exists e, Failed "validate_json_string" e ∈ trace w w') ->
  (Calling "insert_to_db" ∉ trace w w')
  /\ dbs w' = dbs w
  /\ forall t q, length (table_rows t (store w' q)) = length (table_rows t (store w q)).
Proof.
  cbv zeta. run_job_paths w accepts db. all: trace_of_run.
  all: intros [e' He].
  all: first
    [ split; [ absent | split; reflexivity ]
    | exfalso; revert He; absent ].
Qed.

Lemma failed_validation_never_reaches_load_witness :
  let w := initialized [backup_0101] in
  let w' := snd (run_job (spec_sql Cascade) spec_contract "local.db" w) in
  Failed "validate_json_string" ValidationError ∈ trace w w'
  /\ (Calling "insert_to_db" ∉ trace w w')
  /\ dbs w' = dbs w.
Proof.
  cbv zeta.
  assert (H : Failed "validate_json_string" ValidationError
              ∈ trace (initialized [backup_0101])
                  (snd (run_job (spec_sql Cascade) spec_contract "local.db"
                          (initialized [backup_0101])))).
  { apply in_trace. vm_compute. reflexivity. }
  split; [exact H|].
  destruct (failed_validation_never_reaches_load (spec_sql Cascade) spec_contract
              "local.db" (initialized [backup_0101])
              (ex_intro _ ValidationError H)) as (Hn & Hd & _).
  split; [exact Hn | exact Hd].
Defined.




(** ** The staging file *)

Lemma fresh_file (w : world) : files w !! fresh (dom (files w)) = None.
Proof. apply not_elem_of_dom, is_fresh. Qed.

(** C3: the staging file is not released.  In every run in which
    [download_latest_json] has returned, the temporary file is a new file,
    and when the run ends, with a result or with an exception of any later
    stage, the local files are the earlier ones and that file: nothing has
    deleted it. *)
Theorem staging_file_survives_the_run (sql : sql_statements)
    (accepts : pyval -> bool) (db : string) (w : world) :
  let w' := snd (run_job sql accepts db w) in
  Returned "download_latest_json" ∈ trace w w' ->
  files w !! fresh (dom (files w)) = None
  /\ exists c, files w' = <[fresh (dom (files w)) := c]> (files w).
Proof.
  cbv zeta. run_job_paths w accepts db. all: trace_of_run.
  all: intros Hret.
  all: try (exfalso; revert Hret; absent).
  all: split; [apply fresh_file|]; project_world; eexists; reflexivity.
Qed.

Lemma staging_file_survives_the_run_witness :
  Returned "download_latest_json"
    ∈ trace (initialized [backup_dup]) (snd (sample_run [backup_dup]))
  /\ fst (sample_run [backup_dup]) = Raise IntegrityError
  /\ files (initialized [backup_dup])
       !! fresh (dom (files (initialized [backup_dup]))) = None
  /\ exists c,
       files (snd (sample_run [backup_dup]))
       = <[fresh (dom (files (initialized [backup_dup]))) := c]>
           (files (initialized [backup_dup])).
Proof.
  assert (H : Returned "download_latest_json"
    ∈ trace (initialized [backup_dup]) (snd (sample_run [backup_dup]))).
  { apply in_trace. vm_compute. reflexivity. }
  split; [exact H|]. split; [vm_compute; reflexivity|].
  exact (staging_file_survives_the_run (spec_sql Cascade) spec_contract
           "local.db" (initialized [backup_dup]) H).
Defined.

(** ** Referential constraints during the load *)

(** A connection starts with [foreign_keys] off, and [insert_to_db] issues
    no pragma on the one it opens. *)
Lemma connect_leaves_foreign_keys_off (p : string) (w w' : world) (con : nat) :
  sqlite3_connect p w = (Ok con, w') ->
  c_foreign_keys <$> conns w' !! con = Some false.
Proof.
  unfold sqlite3_connect. destruct (decide (p ∈ unopenable w)); [discriminate|].
  intros [= <- <-]. simpl. rewrite lookup_insert_eq. reflexivity.
Qed.

(** C2: referential constraints are not enforced by the load.  The store is
    initialized by [create_db], the snapshot passes the contract and holds
    one event whose session is in no table: the run returns, the event is
    in the store and the sessions table is empty.  The same insertion on a
    connection with [foreign_keys] on is refused. *)
Theorem event_of_missing_session_is_loaded :
  spec_contract snapshot_dangling = true
  /\ fst (sample_run [backup_dangling]) = Ok "Job ran successfully."
  /\ count "sessions" (snd (sample_run [backup_dangling])) = 0%nat
  /\ count "events" (snd (sample_run [backup_dangling])) = 1%nat
  /\ load_rows true (insert_events (spec_sql Cascade))
       [event_row "e1" "s-missing" "user_prompt" "User"]
       (store (initialized [backup_dangling]) "local.db")
     = Raise IntegrityError.
Proof. vm_compute. repeat split. Qed.

(** ** The snapshot locator *)

Lemma filter_none {A : Type} (P : A -> Prop) `{forall x, Decision (P x)}
    (l : list A) :
  (forall x, x ∈ l -> ~ P x) -> filter P l = [].
Proof.
  induction l as [|x l IH]; intros Hl; [reflexivity|].
  rewrite filter_cons. destruct (decide (P x)) as [Hp|Hp].
  - exfalso. apply (Hl x); [left | exact Hp].
  - apply IH. intros y Hy. apply Hl. right. exact Hy.
Qed.

(** C4, as amended: for every container in which no object's name starts
    with [backup_], the locator fails with an exception, the
    [AttributeError] of reading the name of the absent latest object; the
    failure is logged, and nothing is downloaded or staged. *)
Theorem no_backup_raises_before_staging (cc : container_client)
    (bs : list blob) (w : world) :
  cc_blobs cc = Some bs ->
  (forall b, b ∈ bs -> String.prefix "backup_" (b_name b) = false) ->
  download_latest_json cc w =
  (Raise AttributeError,
   logged [Calling "download_latest_json";
           Failed "download_latest_json" AttributeError] w).
Proof.
  intros Hbs Hnone. rewrite download_latest_json_run. cbv zeta.
  unfold locate. rewrite Hbs.
  rewrite filter_none; [reflexivity|].
  intros b Hb Hp. rewrite (Hnone b Hb) in Hp. discriminate.
Qed.

Lemma no_backup_raises_before_staging_witness :
  cc_blobs {| cc_blobs := Some [backup "notes.txt" 7 snapshot_ok] |}
    = Some [backup "notes.txt" 7 snapshot_ok]
  /\ (forall b, b ∈ [backup "notes.txt" 7 snapshot_ok] ->
        String.prefix "backup_" (b_name b) = false)
  /\ download_latest_json {| cc_blobs := Some [backup "notes.txt" 7 snapshot_ok] |}
       (world_with [])
     = (Raise AttributeError,
        logged [Calling "download_latest_json";
                Failed "download_latest_json" AttributeError] (world_with [])).
Proof.
  assert (H : forall b, b ∈ [backup "notes.txt" 7 snapshot_ok] ->
                String.prefix "backup_" (b_name b) = false).
  { intros b Hb. apply list_elem_of_singleton in Hb. subst b. reflexivity. }
  split; [reflexivity|]. split; [exact H|].
  exact (no_backup_raises_before_staging
           {| cc_blobs := Some [backup "notes.txt" 7 snapshot_ok] |}
           [backup "notes.txt" 7 snapshot_ok] (world_with []) eq_refl H).
Defined.

(** C4 as stated does not hold: with no matching object the locator raises
    an exception whose class is not [NotFoundError]. *)
Lemma no_backup_is_not_a_not_found_error :
  exists e,
    fst (download_latest_json
           {| cc_blobs := Some [backup "notes.txt" 7 snapshot_ok] |}
           (world_with [])) = Raise e
    /\ exn_name e = "AttributeError"
    /\ exn_name e <> "NotFoundError".
Proof.
  exists AttributeError. split; [vm_compute; reflexivity|].
  split; [reflexivity | discriminate].
Qed.

(** The running maximum: the result is the first element of greatest
    creation time. *)
Lemma max_from_first_greatest (best : blob) (l : list blob) :
  exists l1 l2,
    best :: l = (l1 ++ max_from best l :: l2)%list
    /\ (forall x, x ∈ l1 -> b_creation_time x < b_creation_time (max_from best l))
    /\ (forall x, x ∈ l2 -> b_creation_time x <= b_creation_time (max_from best l)).
Proof.
  revert best. induction l as [|b l IH]; intros best.
  - exists [], []. simpl. split; [reflexivity|].
    split; intros x Hx; inversion Hx.
  - simpl. destruct (b_creation_time best <? b_creation_time b) eqn:Hlt.
    + apply Z.ltb_lt in Hlt.
      destruct (IH b) as (l1 & l2 & Heq & H1 & H2).
      remember (max_from b l) as m eqn:Hm. clear Hm IH.
      exists (best :: l1), l2. split; [simpl; rewrite <- Heq; reflexivity|].
      split; [|exact H2].
      intros x Hx. apply elem_of_cons in Hx as [->|Hx]; [|apply H1, Hx].
      destruct l1 as [|y l1].
      * simpl in Heq. injection Heq as Hb _. rewrite <- Hb. exact Hlt.
      * simpl in Heq. injection Heq as Hb _. subst y.
        specialize (H1 b (list_elem_of_here _ _)). lia.
    + apply Z.ltb_ge in Hlt.
      destruct (IH best) as (l1 & l2 & Heq & H1 & H2).
      remember (max_from best l) as m eqn:Hm. clear Hm IH.
      destruct l1 as [|y l1].
      * simpl in Heq. injection Heq as Hb Hl.
        exists [], (b :: l2). simpl. rewrite <- Hb, Hl. split; [reflexivity|].
        split; [intros x Hx; inversion Hx|].
        intros x Hx. apply elem_of_cons in Hx as [->|Hx]; [exact Hlt|].
        specialize (H2 x Hx). rewrite <- Hb in H2. exact H2.
      * simpl in Heq. injection Heq as Hb Hl. subst y.
        exists (best :: b :: l1), l2. simpl. rewrite Hl. split; [reflexivity|].
        split; [|exact H2].
        intros x Hx. apply elem_of_cons in Hx as [->|Hx].
        { apply H1. left. }
        apply elem_of_cons in Hx as [->|Hx].
        { specialize (H1 best (list_elem_of_here _ _)). lia. }
        apply H1. right. exact Hx.
Qed.

Lemma find_unique_name (b : blob) (bs : list blob) :
  NoDup (map b_name bs) -> b ∈ bs ->
  find (fun x => String.eqb (b_name x) (b_name b)) bs = Some b.
Proof.
  induction bs as [|x bs IH]; intros Hnd Hin; [inversion Hin|].
  simpl in *. apply NoDup_cons in Hnd as [Hx Hnd].
  destruct (String.eqb (b_name x) (b_name b)) eqn:Heq.
  - apply String.eqb_eq in Heq.
    apply elem_of_cons in Hin as [->|Hin]; [reflexivity|].
    exfalso. apply Hx. rewrite Heq. apply list_elem_of_fmap. exists b. split; [reflexivity|exact Hin].
  - apply String.eqb_neq in Heq.
    apply elem_of_cons in Hin as [->|Hin]; [congruence|].
    apply IH; assumption.
Qed.

(** What [download_latest_json] does in a container that lists at least one
    object of the prefix, under names that are unique: it takes the object
    of greatest creation time, the first listed among equals, requests it by
    its name and stages its bytes. *)
Lemma download_latest_json_selects (cc : container_client) (bs : list blob)
    (w : world) :
  let eligible := filter (fun b => String.prefix "backup_" (b_name b) = true) bs in
  cc_blobs cc = Some bs ->
  eligible <> [] ->
  NoDup (map b_name bs) ->
  exists latest before after,
    eligible = (before ++ latest :: after)%list
    /\ (forall b, b ∈ eligible -> b_creation_time b <= b_creation_time latest)
    /\ (forall b, b ∈ before -> b_creation_time b < b_creation_time latest)
    /\ download_latest_json cc w =
       match b_body latest with
       | Data c =>
           (Ok (fresh (dom (files w))),
            logged [Calling "download_latest_json"; Returned "download_latest_json"]
              (set_files (<[fresh (dom (files w)) := c]> (files w)) w))
       | ReadFails =>
           (Raise HttpResponseError,
            logged [Calling "download_latest_json";
                    Failed "download_latest_json" HttpResponseError]
              (set_files (<[fresh (dom (files w)) := Unparsable]> (files w)) w))
       | DownloadFails =>
           (Raise HttpResponseError,
            logged [Calling "download_latest_json";
                    Failed "download_latest_json" HttpResponseError] w)
       end.
Proof.
  cbv zeta. intros Hbs Hne Hnd.
  remember (filter (fun b => String.prefix "backup_" (b_name b) = true) bs)
    as eligible eqn:Hel.
  destruct eligible as [|first rest]; [congruence|].
  destruct (max_from_first_greatest first rest) as (before & after & Heq & Hb & Ha).
  exists (max_from first rest), before, after.
  split; [exact Heq|].
  split.
  { intros b Hin. rewrite Heq in Hin.
    apply elem_of_app in Hin as [Hin|Hin].
    - specialize (Hb b Hin). lia.
    - apply elem_of_cons in Hin as [->|Hin]; [lia | apply Ha, Hin]. }
  split; [exact Hb|].
  rewrite download_latest_json_run. cbv zeta.
  unfold locate. rewrite Hbs, <- Hel. cbn [py_max].
  rewrite find_unique_name; [| exact Hnd |].
  2:{ assert (Hin : max_from first rest ∈ first :: rest).
      { rewrite Heq. apply elem_of_app. right. left. }
      rewrite Hel in Hin. apply list_elem_of_filter in Hin as [_ Hin]. exact Hin. }
  destruct (b_body (max_from first rest)); reflexivity.
Qed.

(** C7, as amended: in every container that lists at least one object whose
    name starts with [backup_], under names that are unique,
    [download_latest_json] selects among those objects the one of greatest
    creation time, the first listed when several share it, so that the
    choice is a function of the listing, and it is the bytes of that object
    that it requests and stages.  In particular, with
    [backup_20240101T000000] and [backup_20240102T000000] created in the
    order of their names, at whatever times and in whichever order the two
    are listed, it stages the second. *)
Theorem latest_backup_is_selected (cc : container_client) (bs : list blob)
    (w : world) :
  let eligible := filter (fun b => String.prefix "backup_" (b_name b) = true) bs in
  cc_blobs cc = Some bs ->
  eligible <> [] ->
  NoDup (map b_name bs) ->
  (exists latest before after,
     eligible = (before ++ latest :: after)%list
     /\ (forall b, b ∈ eligible -> b_creation_time b <= b_creation_time latest)
     /\ (forall b, b ∈ before -> b_creation_time b < b_creation_time latest)
     /\ download_latest_json cc w =
        match b_body latest with
        | Data c =>
            (Ok (fresh (dom (files w))),
             logged [Calling "download_latest_json";
                     Returned "download_latest_json"]
               (set_files (<[fresh (dom (files w)) := c]> (files w)) w))
        | ReadFails =>
            (Raise HttpResponseError,
             logged [Calling "download_latest_json";
                     Failed "download_latest_json" HttpResponseError]
               (set_files (<[fresh (dom (files w)) := Unparsable]> (files w)) w))
        | DownloadFails =>
            (Raise HttpResponseError,
             logged [Calling "download_latest_json";
                     Failed "download_latest_json" HttpResponseError] w)
        end)
  /\ (forall (t1 t2 : Z) (c1 c2 : content) (listing : list blob),
        t1 < t2 ->
        listing = [ {| b_name := "backup_20240101T000000"; b_creation_time := t1;
                       b_body := Data c1 |};
                    {| b_name := "backup_20240102T000000"; b_creation_time := t2;
                       b_body := Data c2 |} ]
        \/ listing = [ {| b_name := "backup_20240102T000000"; b_creation_time := t2;
                          b_body := Data c2 |};
                       {| b_name := "backup_20240101T000000"; b_creation_time := t1;
                          b_body := Data c1 |} ] ->
        download_latest_json {| cc_blobs := Some listing |} w =
        (Ok (fresh (dom (files w))),
         logged [Calling "download_latest_json"; Returned "download_latest_json"]
           (set_files (<[fresh (dom (files w)) := c2]> (files w)) w))).
Proof.
  cbv zeta. intros Hbs Hne Hnd.
  split; [exact (download_latest_json_selects cc bs w Hbs Hne Hnd)|].
  intros t1 t2 c1 c2 listing Hlt Hl.
  rewrite download_latest_json_run. cbv zeta. unfold locate. cbn [cc_blobs].
  destruct Hl as [-> | ->].
  - rewrite !filter_cons_True by reflexivity. rewrite filter_nil.
    cbn [py_max max_from b_creation_time].
    assert (Ht : (t1 <? t2) = true) by (apply Z.ltb_lt; exact Hlt).
    rewrite Ht. reflexivity.
  - rewrite !filter_cons_True by reflexivity. rewrite filter_nil.
    cbn [py_max max_from b_creation_time].
    assert (Ht : (t2 <? t1) = false) by (apply Z.ltb_ge; lia).
    rewrite Ht. reflexivity.
Qed.

Lemma latest_backup_is_selected_witness :
  filter (fun b => String.prefix "backup_" (b_name b) = true)
    [backup_0101; backup_0102] <> []
  /\ NoDup (map b_name [backup_0101; backup_0102])
  /\ fst (download_latest_json {| cc_blobs := Some [backup_0101; backup_0102] |}
            (world_with []))
     = Ok (fresh (dom (files (world_with []))))
  /\ files (snd (download_latest_json
                   {| cc_blobs := Some [backup_0101; backup_0102] |}
                   (world_with [])))
       !! fresh (dom (files (world_with [])))
     = Some (Json snapshot_ok).
Proof.
  assert (H : filter (fun b => String.prefix "backup_" (b_name b) = true)
                [backup_0101; backup_0102] <> []) by discriminate.
  assert (Hnd : NoDup (map b_name [backup_0101; backup_0102])).
  { apply (bool_decide_unpack _). vm_compute. exact I. }
  split; [exact H|]. split; [exact Hnd|].
  destruct (latest_backup_is_selected
              {| cc_blobs := Some [backup_0101; backup_0102] |}
              [backup_0101; backup_0102] (world_with []) eq_refl H Hnd)
    as [_ Hex].
  rewrite (Hex 20240101000000 20240102000000 (Json snapshot_invalid)
             (Json snapshot_ok) [backup_0101; backup_0102]
             eq_refl (or_introl eq_refl)).
  cbn [fst snd]. split; [reflexivity|].
  simpl. apply lookup_insert_eq.
Defined.

(** C7 as stated does not hold: the selection goes by creation time, not by
    name.  With the same two names, the object of the earlier name having
    the later creation time, [download_latest_json] stages that object and
    not the one named [backup_20240102T000000]. *)
Lemma latest_backup_is_not_chosen_by_name :
  map b_name [backup_0101_rewritten; backup_0102]
    = ["backup_20240101T000000"; "backup_20240102T000000"]
  /\ b_body backup_0101_rewritten = Data (Json snapshot_invalid)
  /\ b_body backup_0102 = Data (Json snapshot_ok)
  /\ snapshot_invalid <> snapshot_ok
  /\ fst (download_latest_json
            {| cc_blobs := Some [backup_0101_rewritten; backup_0102] |}
            (world_with []))
     = Ok (fresh (dom (files (world_with []))))
  /\ files (snd (download_latest_json
                   {| cc_blobs := Some [backup_0101_rewritten; backup_0102] |}
                   (world_with [])))
       !! fresh (dom (files (world_with [])))
     = Some (Json snapshot_invalid).
Proof.
  split; [reflexivity|]. split; [reflexivity|]. split; [reflexivity|].
  split; [discriminate|].
  split; vm_compute; reflexivity.
Qed.

(** ** Store initialization *)

Lemma with_conn_rebase (base : world) (con : nat) (c : connection)
    (p : string) (d : database) :
  put_db p d (with_conn base con c) =
  (Ok tt, with_conn (set_dbs (<[p := d]> (dbs base)) base) con c).
Proof. reflexivity. Qed.

Lemma script_loop_run (script : list ddl) (base : world) (con : nat)
    (c : connection) :
  dbs base !! c_path c = Some (c_db c) ->
  for_each script (script_step con) (with_conn base con c) =
  (fst (run_script script (c_db c)),
   with_conn
     (set_dbs (<[c_path c := snd (run_script script (c_db c))]> (dbs base)) base)
     con (set_c_db (snd (run_script script (c_db c))) c)).
Proof.
  revert base c. induction script as [|s script IH]; intros base c Hc.
  - simpl. unfold mret, M_ret. f_equal. rewrite set_c_db_same.
    rewrite insert_id by exact Hc. apply world_eq; reflexivity.
  - simpl. rewrite bind_run. unfold script_step at 1.
    rewrite with_con_run, bind_run. unfold lift.
    destruct (exec_ddl s (c_db c)) as [d|e] eqn:He.
    + rewrite bind_run, with_conn_put, with_conn_rebase.
      rewrite IH by (simpl; apply lookup_insert_eq).
      simpl. f_equal. unfold with_conn. simpl.
      rewrite insert_insert_eq. reflexivity.
    + simpl. f_equal. rewrite set_c_db_same.
      rewrite insert_id by exact Hc. apply world_eq; reflexivity.
Qed.

Lemma pragma_foreign_keys_run (base : world) (con : nat) (c : connection) (b : bool) :
  pragma_foreign_keys con b (with_conn base con c) =
  (Ok tt, with_conn base con (set_c_foreign_keys b c)).
Proof. unfold pragma_foreign_keys. rewrite with_con_run. apply with_conn_put. Qed.

Lemma pragma_synchronous_run (base : world) (con : nat) (c : connection)
    (m : sync_mode) :
  pragma_synchronous con m (with_conn base con c) =
  (Ok tt, with_conn base con (set_c_synchronous m c)).
Proof. unfold pragma_synchronous. rewrite with_con_run. apply with_conn_put. Qed.

Lemma pragma_temp_store_run (base : world) (con : nat) (c : connection)
    (m : temp_store) :
  pragma_temp_store con m (with_conn base con c) =
  (Ok tt, with_conn base con (set_c_temp_store m c)).
Proof. unfold pragma_temp_store. rewrite with_con_run. apply with_conn_put. Qed.

Lemma pragma_journal_mode_run (base : world) (con : nat) (c : connection)
    (j : journal) :
  pragma_journal_mode con j (with_conn base con c) =
  (Ok tt,
   with_conn
     (set_dbs (<[c_path c := set_journal j (store base (c_path c))]> (dbs base)) base)
     con (set_c_db (set_journal j (c_db c)) c)).
Proof.
  unfold pragma_journal_mode. rewrite with_con_run, bind_run. unfold get_world.
  cbv beta iota. rewrite bind_run, with_conn_put. reflexivity.
Qed.

(** The exact effect of [create_db]: the schema script runs on the database
    at the path, in WAL mode when asked for, and what it reaches is what
    the file holds afterwards; no connection is left open. *)
Lemma create_db_run (sql : sql_statements) (db : string) (ensure_wal : bool)
    (w : world) :
  create_db sql db ensure_wal w =
  if decide (db ∈ unopenable w) then (Raise OperationalError, w)
  else
    let d0 := if ensure_wal then set_journal JournalWal (store w db)
              else store w db in
    (fst (run_script (schema_sql sql) d0),
     set_dbs (<[db := snd (run_script (schema_sql sql) d0)]> (dbs w)) w).
Proof.
  unfold create_db. rewrite bind_run. unfold sqlite3_connect.
  destruct (decide (db ∈ unopenable w)) as [Hu|Hu]; [reflexivity|].
  set (base := set_dbs (<[db := store w db]> (dbs w)) w).
  set (con := fresh (dom (conns w))).
  set (c0 := {| c_path := db; c_db := store w db; c_foreign_keys := false;
                c_synchronous := SyncFull; c_temp_store := TempDefault |}).
  change (set_conns _ _) with (with_conn base con c0).
  assert (Hfresh : conns base !! con = None) by exact (fresh_conn w).
  rewrite bind_run, pragma_foreign_keys_run.
  unfold try_finally. rewrite reraise_run.
  cbv zeta.
  destruct ensure_wal.
  - rewrite bind_run, bind_run, pragma_journal_mode_run, bind_run,
      pragma_synchronous_run, pragma_temp_store_run.
    unfold con_executescript. rewrite bind_run, bind_run, commit_with_conn.
    rewrite script_loop_run by (simpl; apply lookup_insert_eq).
    cbn [c_db c_path set_c_db set_c_foreign_keys set_c_synchronous
         set_c_temp_store c0].
    change (store base db) with (default empty_db (<[db := store w db]> (dbs w) !! db)).
    rewrite lookup_insert_eq. cbn [default from_option id].
    destruct (run_script (schema_sql sql) (set_journal JournalWal (store w db)))
      as [[[]|e] d'] eqn:Hs; cbn [fst snd].
    + rewrite commit_with_conn, close_with_conn by exact Hfresh.
      f_equal. apply world_eq; try reflexivity.
      simpl. rewrite !insert_insert_eq. reflexivity.
    + rewrite close_with_conn by exact Hfresh.
      f_equal. apply world_eq; try reflexivity.
      simpl. rewrite !insert_insert_eq. reflexivity.
  - rewrite bind_run. unfold mret at 1, M_ret at 1.
    unfold con_executescript. rewrite bind_run, bind_run, commit_with_conn.
    rewrite script_loop_run by (simpl; apply lookup_insert_eq).
    cbn [c_db c_path set_c_db set_c_foreign_keys c0].
    destruct (run_script (schema_sql sql) (store w db))
      as [[[]|e] d'] eqn:Hs; cbn [fst snd].
    + rewrite commit_with_conn, close_with_conn by exact Hfresh.
      f_equal. apply world_eq; try reflexivity.
      simpl. rewrite !insert_insert_eq. reflexivity.
    + rewrite close_with_conn by exact Hfresh.
      f_equal. apply world_eq; try reflexivity.
      simpl. rewrite !insert_insert_eq. reflexivity.
Qed.

Lemma exec_ddl_journal (s : ddl) (d d' : database) :
  exec_ddl s d = Ok d' -> journal_mode d' = journal_mode d.
Proof.
  destruct s as [ine n def|ine n t cols]; simpl;
    repeat (case_match; try discriminate); intros [= <-]; reflexivity.
Qed.

Lemma exec_ddl_provides (s : ddl) (d d' : database) :
  exec_ddl s d = Ok d' -> provided d' s.
Proof.
  destruct s as [ine n def|ine n t cols]; simpl;
    repeat (case_match; try discriminate); intros [= <-]; simpl;
    rewrite ?lookup_insert_eq; eauto.
Qed.

Lemma exec_ddl_keeps (s s0 : ddl) (d d' : database) :
  exec_ddl s d = Ok d' -> provided d s0 -> provided d' s0.
Proof.
  intros He Hp.
  assert (Hsub : forall n o, objects d !! n = Some o -> objects d' !! n = Some o).
  { destruct s as [ine n def|ine n t cols]; simpl in He;
      repeat (case_match; try discriminate); injection He as <-;
      try (intros; assumption); simpl; intros n' o Hn';
      (rewrite lookup_insert_ne; [exact Hn' | congruence]). }
  destruct s0 as [ine0 n0 def0|ine0 n0 t0 cols0]; simpl in *.
  - destruct Hp as (def & rows & Hp). eauto.
  - destruct Hp as (t & cols & Hp). eauto.
Qed.

Lemma exec_ddl_again (s : ddl) (d : database) :
  if_not_exists s = true -> provided d s -> exec_ddl s d = Ok d.
Proof.
  destruct s as [ine n def|ine n t cols]; simpl; intros -> Hp.
  - destruct Hp as (def' & rows & ->). reflexivity.
  - destruct Hp as (t' & cols' & ->). reflexivity.
Qed.

Lemma run_script_journal (script : list ddl) (d : database) :
  journal_mode (snd (run_script script d)) = journal_mode d.
Proof.
  revert d. induction script as [|s script IH]; intros d; [reflexivity|].
  simpl. destruct (exec_ddl s d) as [d'|e] eqn:He; [|reflexivity].
  rewrite IH. apply (exec_ddl_journal s), He.
Qed.

Lemma run_script_keeps (script : list ddl) (s0 : ddl) (d : database) :
  provided d s0 -> provided (snd (run_script script d)) s0.
Proof.
  revert d. induction script as [|s script IH]; intros d Hp; [exact Hp|].
  simpl. destruct (exec_ddl s d) as [d'|e] eqn:He; [|exact Hp].
  apply IH. apply (exec_ddl_keeps s s0 d d' He Hp).
Qed.

Lemma run_script_provides (script : list ddl) (d : database) :
  fst (run_script script d) = Ok tt ->
  Forall (provided (snd (run_script script d))) script.
Proof.
  revert d. induction script as [|s script IH]; intros d Hr; [constructor|].
  simpl in *. destruct (exec_ddl s d) as [d'|e] eqn:He; [|discriminate].
  constructor; [|apply IH, Hr].
  apply run_script_keeps. apply (exec_ddl_provides s d d' He).
Qed.

Lemma run_script_again (script : list ddl) (d : database) :
  forallb if_not_exists script = true ->
  Forall (provided d) script ->
  run_script script d = (Ok tt, d).
Proof.
  induction script as [|s script IH]; intros Hine Hp; [reflexivity|].
  simpl in *. apply andb_true_iff in Hine as [Hs Hine].
  inversion Hp as [|? ? Hps Hpr]; subst.
  rewrite exec_ddl_again by assumption. apply IH; assumption.
Qed.

Lemma provided_set_journal (j : journal) (d : database) (s : ddl) :
  provided d s -> provided (set_journal j d) s.
Proof. destruct s; exact id. Qed.

(** A schema script of [IF NOT EXISTS] statements makes [create_db]
    idempotent: once a call has returned, a further call returns too and
    finds every object in place. *)
Lemma create_db_again (sql : sql_statements) (db : string) (ew ew' : bool)
    (w w1 : world) :
  forallb if_not_exists (schema_sql sql) = true ->
  create_db sql db ew w = (Ok tt, w1) ->
  Forall (provided (store w1 db)) (schema_sql sql)
  /\ create_db sql db ew' w1 =
     (Ok tt,
      set_dbs (<[db := if ew' then set_journal JournalWal (store w1 db)
                       else store w1 db]> (dbs w1)) w1)
  /\ (ew = ew' -> create_db sql db ew' w1 = (Ok tt, w1)).
Proof.
  intros Hine. rewrite create_db_run.
  destruct (decide (db ∈ unopenable w)) as [Hu|Hu]; [discriminate|].
  cbv zeta. set (d0 := if ew then _ else _).
  intros [= Hr <-].
  assert (Hst : store (set_dbs (<[db := snd (run_script (schema_sql sql) d0)]> (dbs w)) w) db
                = snd (run_script (schema_sql sql) d0)).
  { unfold store. simpl. rewrite lookup_insert_eq. reflexivity. }
  assert (Hp : Forall (provided (snd (run_script (schema_sql sql) d0))) (schema_sql sql)).
  { apply run_script_provides. exact Hr. }
  rewrite Hst. split; [exact Hp|].
  assert (Hrun : create_db sql db ew'
                   (set_dbs (<[db := snd (run_script (schema_sql sql) d0)]> (dbs w)) w)
                 = (Ok tt,
                    set_dbs (<[db := if ew' then set_journal JournalWal
                                                   (snd (run_script (schema_sql sql) d0))
                                     else snd (run_script (schema_sql sql) d0)]>
                               (dbs (set_dbs (<[db := snd (run_script (schema_sql sql) d0)]> (dbs w)) w)))
                      (set_dbs (<[db := snd (run_script (schema_sql sql) d0)]> (dbs w)) w))).
  { rewrite create_db_run. simpl unopenable.
    rewrite (decide_False (P := db ∈ _)) by exact Hu.
    cbv zeta. rewrite Hst.
    rewrite run_script_again; [reflexivity | exact Hine |].
    destruct ew'; [|exact Hp].
    eapply Forall_impl; [exact Hp|]. intros s Hs. apply provided_set_journal, Hs. }
  split; [exact Hrun|].
  intros <-. rewrite Hrun. f_equal. apply world_eq; try reflexivity.
  simpl. rewrite insert_insert_eq. f_equal.
  destruct ew; [|reflexivity].
  assert (Hj : journal_mode (snd (run_script (schema_sql sql) d0)) = JournalWal).
  { rewrite run_script_journal. reflexivity. }
  destruct (snd (run_script (schema_sql sql) d0)) as [o j]. simpl in Hj. subst j.
  reflexivity.
Qed.

(** On a path that can be opened and holds no store yet, [create_db]
    returns: the first call of the two is not vacuous. *)
Lemma create_db_initializes_absent_store (on_child_delete : fk_action)
    (db : string) (ensure_wal : bool) (w : world) :
  db ∉ unopenable w -> dbs w !! db = None ->
  fst (create_db (spec_sql on_child_delete) db ensure_wal w) = Ok tt.
Proof.
  intros Hopen Habsent. rewrite create_db_run.
  rewrite decide_False by exact Hopen. cbv zeta.
  unfold store. rewrite Habsent.
  destruct ensure_wal; vm_compute; reflexivity.
Qed.

(** C6: store initialization is idempotent.  For every store path and every
    world, once [create_db] has returned, calling it again raises no error
    and leaves the world as it is, the tables and indices of the store
    included (also when the second call differs in [ensure_wal], the
    catalogue is the same); the catalogue holds every table and index of
    the schema, and no name twice. *)
Theorem create_db_is_idempotent (on_child_delete : fk_action) (db : string)
    (ensure_wal : bool) (w w1 : world) :
  create_db (spec_sql on_child_delete) db ensure_wal w = (Ok tt, w1) ->
  create_db (spec_sql on_child_delete) db ensure_wal w1 = (Ok tt, w1)
  /\ (forall ensure_wal', exists w2,
        create_db (spec_sql on_child_delete) db ensure_wal' w1 = (Ok tt, w2)
        /\ objects (store w2 db) = objects (store w1 db))
  /\ Forall (provided (store w1 db)) (schema_sql (spec_sql on_child_delete))
  /\ NoDup (map fst (map_to_list (objects (store w1 db)))).
Proof.
  intros Hfirst.
  split.
  { apply (create_db_again (spec_sql on_child_delete) db ensure_wal ensure_wal w w1 eq_refl Hfirst).
    reflexivity. }
  split.
  { intros ew'.
    destruct (create_db_again (spec_sql on_child_delete) db ensure_wal ew' w w1 eq_refl Hfirst)
      as (_ & Hrun & _).
    eexists. split; [exact Hrun|].
    unfold store at 1. simpl. rewrite lookup_insert_eq. simpl.
    destruct ew'; reflexivity. }
  split.
  { apply (create_db_again (spec_sql on_child_delete) db ensure_wal ensure_wal w w1 eq_refl Hfirst). }
  apply NoDup_fst_map_to_list.
Qed.

Lemma create_db_is_idempotent_witness :
  create_db (spec_sql Cascade) "local.db" true (world_with [])
    = (Ok tt, initialized [])
  /\ create_db (spec_sql Cascade) "local.db" true (initialized [])
    = (Ok tt, initialized [])
  /\ Forall (provided (store (initialized []) "local.db"))
       (schema_sql (spec_sql Cascade)).
Proof.
  assert (H : create_db (spec_sql Cascade) "local.db" true (world_with [])
              = (Ok tt, initialized [])).
  { vm_compute. reflexivity. }
  split; [exact H|].
  destruct (create_db_is_idempotent Cascade "local.db" true (world_with [])
              (initialized []) H) as (Hagain & _ & Hall & _).
  split; [exact Hagain | exact Hall].
Defined.

(** ** Deleting a parent event *)

Lemma filter_all {A : Type} (P : A -> Prop) `{forall x, Decision (P x)}
    (l : list A) :
  (forall x, x ∈ l -> P x) -> filter P l = l.
Proof.
  induction l as [|x l IH]; intros Hl; [reflexivity|].
  rewrite filter_cons. destruct (decide (P x)) as [Hp|Hp].
  - f_equal. apply IH. intros y Hy. apply Hl. right. exact Hy.
  - exfalso. apply Hp, Hl. left.
Qed.

Lemma filter_same {A : Type} (P Q : A -> Prop) `{forall x, Decision (P x)}
    `{forall x, Decision (Q x)} (l : list A) :
  (forall x, x ∈ l -> P x <-> Q x) -> filter P l = filter Q l.
Proof.
  induction l as [|x l IH]; intros Hl; [reflexivity|].
  rewrite !filter_cons.
  assert (Hx : P x <-> Q x) by (apply Hl; left).
  assert (Hr : filter P l = filter Q l).
  { apply IH. intros y Hy. apply Hl. right. exact Hy. }
  destruct (decide (P x)), (decide (Q x)); rewrite ?Hr; tauto.
Qed.

Lemma existsb_none {A : Type} (f : A -> bool) (l : list A) :
  (forall x, x ∈ l -> f x = false) -> existsb f l = false.
Proof.
  induction l as [|x l IH]; intros Hl; [reflexivity|].
  simpl. rewrite (Hl x) by left. apply IH. intros y Hy. apply Hl. right. exact Hy.
Qed.

(** A row refers to the deleted events exactly when its column holds the
    deleted identifier. *)
Lemma refers_to_deleted (id : sqlval) (evs : list row) (fk : foreign_key)
    (r : row) :
  fk_ref fk = "id" ->
  (exists ev, ev ∈ evs /\ matches "id" id ev = true) ->
  refers_to (filter (fun p => matches "id" id p = true) evs) fk r
  = matches (fk_col fk) id r.
Proof.
  intros Href (ev & Hin & Hev). unfold refers_to. rewrite Href.
  assert (Hsame : forall p, p ∈ filter (fun p => matches "id" id p = true) evs ->
                   matches (fk_col fk) (row_get "id" p) r = matches (fk_col fk) id r).
  { intros p Hp. apply list_elem_of_filter in Hp as [Hp _].
    unfold matches in Hp. apply andb_true_iff in Hp as [_ Hp].
    apply bool_decide_eq_true_1 in Hp. rewrite Hp. reflexivity. }
  destruct (matches (fk_col fk) id r) eqn:Hm.
  - apply existsb_exists. exists ev. split.
    + apply list_elem_of_In, list_elem_of_filter. split; assumption.
    + apply Hsame, list_elem_of_filter. split; assumption.
  - apply existsb_none. exact Hsame.
Qed.

(** C8, as amended: in a populated store with referential enforcement on,
    deleting an existing event that no edge names as its child is accepted,
    removes every edge row that names the event as [parent_id] and no other
    edge row, deletes that event and no other event row, and leaves every
    other object of the store as it is.  This holds whatever referential
    action the schema declares for the child side. *)
Theorem parent_delete_cascades (on_child_delete : fk_action) (d : database)
    (edef : table_def) (evs edges : list row) (id : sqlval) :
  objects d !! "events" = Some (Table edef evs) ->
  objects d !! "event_parents"
    = Some (Table (event_parents_def on_child_delete) edges) ->
  (exists ev, ev ∈ evs /\ matches "id" id ev = true) ->
  (forall r, r ∈ edges -> matches "child_id" id r = false) ->
  exists d',
    delete_event true id d = Ok d'
    /\ table_rows "event_parents" d'
       = filter (fun r => matches "parent_id" id r = false) edges
    /\ table_rows "events" d'
       = filter (fun r => matches "id" id r = false) evs
    /\ (forall t, t <> "events" -> t <> "event_parents" ->
        objects d' !! t = objects d !! t).
Proof.
  intros Hev Hed Hex Hchild.
  set (deleted := filter (fun p => matches "id" id p = true) evs).
  set (fkc := {| fk_col := "child_id"; fk_table := "events"; fk_ref := "id";
                 fk_on_delete := on_child_delete |}).
  set (fkp := {| fk_col := "parent_id"; fk_table := "events"; fk_ref := "id";
                 fk_on_delete := Cascade |}).
  assert (Hc : forall r, r ∈ edges -> refers_to deleted fkc r = false).
  { intros r Hr. unfold deleted. rewrite refers_to_deleted by (reflexivity || exact Hex).
    apply Hchild, Hr. }
  assert (Hp : forall r, refers_to deleted fkp r = matches "parent_id" id r).
  { intros r. unfold deleted. rewrite refers_to_deleted by (reflexivity || exact Hex).
    reflexivity. }
  assert (Hprop : propagate deleted "events" [fkc; fkp] edges
                  = filter (fun r => matches "parent_id" id r = false) edges).
  { cbn [propagate targets fk_table fkc fkp String.eqb Ascii.eqb Bool.eqb fk_on_delete].
    assert (Hfirst : match on_child_delete with
                     | Cascade => filter (fun r => refers_to deleted fkc r = false) edges
                     | SetNull | SetDefault =>
                         map (fun r => if refers_to deleted fkc r
                                       then row_set (fk_col fkc) SNull r else r) edges
                     | NoAction | Restrict => edges
                     end = edges).
    { destruct on_child_delete; try reflexivity.
      - rewrite <- (map_id edges) at 2. apply map_ext_in.
        intros r Hr. rewrite Hc; [reflexivity | apply list_elem_of_In, Hr].
      - rewrite <- (map_id edges) at 2. apply map_ext_in.
        intros r Hr. rewrite Hc; [reflexivity | apply list_elem_of_In, Hr].
      - apply filter_all. exact Hc. }
    rewrite Hfirst. apply filter_same. intros r _. rewrite Hp. reflexivity. }
  assert (Hblock : forall a rows, (forall r, r ∈ rows -> r ∈ edges) ->
            a <> Cascade ->
            blocked_by a deleted "events" [fkc; fkp] rows = false).
  { intros a rows Hsub Ha. unfold blocked_by. cbn [existsb].
    rewrite (existsb_none (refers_to deleted fkc) rows)
      by (intros r Hr; apply Hc, Hsub, Hr).
    rewrite andb_false_r. cbn [orb].
    cbn [fk_on_delete fkp].
    rewrite (bool_decide_eq_false_2 (Cascade = a)) by congruence.
    rewrite andb_false_r. reflexivity. }
  unfold delete_event. rewrite Hev, Hed.
  unfold on_parent_delete. cbn [t_fks event_parents_def].
  fold fkc fkp deleted.
  rewrite Hblock by (auto || discriminate).
  rewrite Hprop.
  rewrite Hblock; [| | discriminate].
  2:{ intros r Hr. apply list_elem_of_filter in Hr as [_ Hr]. exact Hr. }
  eexists. split; [reflexivity|].
  unfold table_rows. cbn [objects set_objects].
  rewrite lookup_insert_eq.
  rewrite lookup_insert_ne by discriminate. rewrite lookup_insert_eq.
  split; [reflexivity|]. split; [reflexivity|].
  intros t Ht1 Ht2. rewrite !lookup_insert_ne by congruence. reflexivity.
Qed.

Lemma parent_delete_cascades_witness :
  objects (chain_store NoAction) !! "events"
    = Some (Table events_def (table_rows "events" (chain_store NoAction)))
  /\ objects (chain_store NoAction) !! "event_parents"
     = Some (Table (event_parents_def NoAction)
               [stored_edge (SText "e2") (SText "e1");
                stored_edge (SText "e3") (SText "e2")])
  /\ (exists ev, ev ∈ table_rows "events" (chain_store NoAction)
                 /\ matches "id" (SText "e1") ev = true)
  /\ (forall r, r ∈ [stored_edge (SText "e2") (SText "e1");
                     stored_edge (SText "e3") (SText "e2")] ->
                matches "child_id" (SText "e1") r = false)
  /\ exists d',
       delete_event true (SText "e1") (chain_store NoAction) = Ok d'
       /\ table_rows "event_parents" d' = [stored_edge (SText "e3") (SText "e2")]
       /\ length (table_rows "events" d') = 2%nat.
Proof.
  assert (H1 : objects (chain_store NoAction) !! "events"
    = Some (Table events_def (table_rows "events" (chain_store NoAction)))).
  { vm_compute. reflexivity. }
  assert (H2 : objects (chain_store NoAction) !! "event_parents"
     = Some (Table (event_parents_def NoAction)
               [stored_edge (SText "e2") (SText "e1");
                stored_edge (SText "e3") (SText "e2")])).
  { vm_compute. reflexivity. }
  assert (H3 : exists ev, ev ∈ table_rows "events" (chain_store NoAction)
                 /\ matches "id" (SText "e1") ev = true).
  { eexists. split.
    - vm_compute. left.
    - reflexivity. }
  assert (H4 : forall r, r ∈ [stored_edge (SText "e2") (SText "e1");
                     stored_edge (SText "e3") (SText "e2")] ->
                matches "child_id" (SText "e1") r = false).
  { intros r Hr. apply elem_of_cons in Hr as [->|Hr]; [reflexivity|].
    apply list_elem_of_singleton in Hr. subst r. reflexivity. }
  split; [exact H1|]. split; [exact H2|]. split; [exact H3|]. split; [exact H4|].
  destruct (parent_delete_cascades NoAction (chain_store NoAction) events_def
              (table_rows "events" (chain_store NoAction))
              [stored_edge (SText "e2") (SText "e1");
               stored_edge (SText "e3") (SText "e2")]
              (SText "e1") H1 H2 H3 H4) as (d' & Hd & He & Hv & _).
  exists d'. split; [exact Hd|]. split.
  - rewrite He. reflexivity.
  - rewrite Hv. vm_compute. reflexivity.
Defined.

(** C8 as stated does not hold: in the store of a three-turn conversation
    the reply [e2] is the parent of one edge and the child of another.
    Whatever referential action the child side declares, deleting [e2] does
    not leave the edges that do not name it as parent, here the edge
    [(e2, e1)], as they were: the deletion is refused, or that edge is
    removed or blanked with the cascade. *)
Lemma parent_delete_reaches_child_edges :
  Forall (fun a =>
    edges_after_delete "e2" (chain_store a)
    <> Some (filter (fun r => matches "parent_id" (SText "e2") r = false)
               (table_rows "event_parents" (chain_store a))))
    [NoAction; Restrict; SetNull; SetDefault; Cascade]
  /\ map (fun a => edges_after_delete "e2" (chain_store a))
       [NoAction; Restrict; SetNull; SetDefault; Cascade]
     = [None; None;
        Some [stored_edge SNull (SText "e1")];
        Some [stored_edge SNull (SText "e1")];
        Some []]
  /\ filter (fun r => matches "parent_id" (SText "e2") r = false)
       (table_rows "event_parents" (chain_store Cascade))
     = [stored_edge (SText "e2") (SText "e1")].
Proof.
  split; [|split; vm_compute; reflexivity].
  repeat constructor; vm_compute; discriminate.
Qed.

(** ** What a load adds *)

Lemma sql_insert_ok (fk : bool) (s : insert_stmt) (params : list pyval)
    (d d' : database) :
  sql_insert fk s params d = Ok d' ->
  exists def rows vals,
    objects d !! into s = Some (Table def rows)
    /\ has_cols (columns s) def = true
    /\ length params = length (columns s)
    /\ adapt_all params = Ok vals
    /\ pk_conflict def (new_row def (columns s) vals) rows = false
    /\ d' = set_objects
              (<[into s := Table def (rows ++ [new_row def (columns s) vals])]>
                 (objects d)) d.
Proof.
  unfold sql_insert.
  destruct (objects d !! into s) as [[def rows|]|]; try discriminate.
  destruct (has_cols (columns s) def) eqn:Hc; [|discriminate]. cbn [negb].
  destruct (Nat.eqb _ _) eqn:Hn; [|discriminate]. cbn [negb].
  apply Nat.eqb_eq in Hn.
  destruct (adapt_all params) as [vals|]; [|discriminate].
  destruct (pk_conflict _ _ _) eqn:Hpk; [discriminate|].
  destruct (fk && _); [discriminate|].
  intros [= <-]. exists def, rows, vals. auto 10.
Qed.

Lemma stored_row_after_insert (s : insert_stmt) (def : table_def)
    (rows : list row) (d : database) (x : pyval) :
  objects d !! into s = Some (Table def rows) ->
  forall rows',
    stored_row (set_objects (<[into s := Table def rows']> (objects d)) d) s x
    = stored_row d s x.
Proof.
  intros Hd rows'. unfold stored_row. simpl.
  rewrite lookup_insert_eq, Hd. reflexivity.
Qed.

(** The loop appends one stored row per row of the list, in order, to the
    table of the statement and touches nothing else. *)
Lemma load_rows_appends (fk : bool) (s : insert_stmt) (rows : list pyval)
    (d d' : database) :
  load_rows fk s rows d = Ok d' ->
  exists new,
    Forall2 (fun x r => stored_row d s x = Some r) rows new
    /\ table_rows (into s) d' = (table_rows (into s) d ++ new)%list
    /\ (forall def old, objects d !! into s = Some (Table def old) ->
        objects d' !! into s = Some (Table def (old ++ new)))
    /\ (forall t, t <> into s -> objects d' !! t = objects d !! t)
    /\ journal_mode d' = journal_mode d.
Proof.
  revert d. induction rows as [|x rows IH]; intros d Hl.
  - injection Hl as <-. exists []. rewrite app_nil_r.
    split; [constructor|]. split; [reflexivity|].
    split; [|auto]. intros def old ->. rewrite app_nil_r. reflexivity.
  - simpl in Hl. destruct (py_values x) as [params|] eqn:Hv; [|discriminate].
    destruct (sql_insert fk s params d) as [d1|] eqn:Hi; [|discriminate].
    destruct (sql_insert_ok _ _ _ _ _ Hi)
      as (def & old & vals & Hd & _ & _ & Ha & _ & ->).
    destruct (IH _ Hl) as (new & Hnew & Hrows & Hsame & Hother & Hj).
    exists (new_row def (columns s) vals :: new).
    split.
    { constructor.
      - unfold stored_row. rewrite Hd, Hv, Ha. reflexivity.
      - eapply Forall2_impl; [exact Hnew|]. intros y r Hy. cbv beta in *.
        rewrite (stored_row_after_insert s def old d y Hd) in Hy. exact Hy. }
    split.
    { rewrite Hrows. unfold table_rows. simpl. rewrite lookup_insert_eq, Hd.
      rewrite <- app_assoc. reflexivity. }
    split.
    { intros def' old' Hd'. rewrite Hd in Hd'. injection Hd' as <- <-.
      rewrite (Hsame def (old ++ [new_row def (columns s) vals])%list)
        by (simpl; apply lookup_insert_eq).
      rewrite <- app_assoc. reflexivity. }
    split; [|exact Hj].
    intros t Ht. rewrite Hother by exact Ht. simpl.
    apply lookup_insert_ne. congruence.
Qed.

Lemma insert_to_db_failure_keeps_store (p t : string) (s : insert_stmt)
    (db : string) (w : world) (e : exn) :
  fst (insert_to_db p t s db w) = Raise e ->
  forall q, store (snd (insert_to_db p t s db w)) q = store w q.
Proof.
  rewrite insert_to_db_run.
  destruct (decide (db ∈ unopenable w)); [reflexivity|].
  destruct (insert_outcome _ _ _ _); [discriminate|].
  intros _. apply (store_after_reopen w _ db). reflexivity.
Qed.

(** X1: When [insert_to_db] returns, the table of the statement holds its
    earlier rows followed by one stored row for each row of the document's
    list, in the order of the document; every other table and index and
    the journal mode are as before. *)
Theorem insert_to_db_appends_document_rows (p t : string) (s : insert_stmt)
    (db : string) (w : world) (msg : string) :
  fst (insert_to_db p t s db w) = Ok msg ->
  exists rows new,
    staged_rows (files w !! p) t = Ok rows
    /\ Forall2 (fun x r => stored_row (store w db) s x = Some r) rows new
    /\ table_rows (into s) (store (snd (insert_to_db p t s db w)) db)
       = (table_rows (into s) (store w db) ++ new)%list
    /\ (forall t', t' <> into s ->
        objects (store (snd (insert_to_db p t s db w)) db) !! t'
        = objects (store w db) !! t')
    /\ journal_mode (store (snd (insert_to_db p t s db w)) db)
       = journal_mode (store w db).
Proof.
  rewrite insert_to_db_run.
  destruct (decide (db ∈ unopenable w)); [discriminate|].
  unfold insert_outcome.
  destruct (staged_rows (files w !! p) t) as [rows|] eqn:Hs; [|discriminate].
  destruct (load_rows false s rows (store w db)) as [d'|] eqn:Hl; [|discriminate].
  intros _. cbn [snd].
  assert (Hst : store (logged [Calling "insert_to_db"; Returned "insert_to_db"]
                         (set_dbs (<[db := d']> (dbs w)) w)) db = d').
  { unfold store. simpl. rewrite lookup_insert_eq. reflexivity. }
  rewrite Hst.
  destruct (load_rows_appends _ _ _ _ _ Hl) as (new & H1 & H2 & _ & H3 & H4).
  exists rows, new. auto.
Qed.

Lemma insert_to_db_appends_document_rows_witness :
  fst (insert_to_db "data.json" "test_table" test_insert "test.db" test_world)
    = Ok "Data inserted successfully to test_table."
  /\ exists rows new,
       staged_rows (files test_world !! "data.json") "test_table" = Ok rows
       /\ Forall2 (fun x r => stored_row (store test_world "test.db") test_insert x
                               = Some r) rows new
       /\ table_rows "test_table"
            (store (snd (insert_to_db "data.json" "test_table" test_insert
                           "test.db" test_world)) "test.db")
          = (table_rows "test_table" (store test_world "test.db") ++ new)%list.
Proof.
  assert (H : fst (insert_to_db "data.json" "test_table" test_insert "test.db"
                     test_world)
              = Ok "Data inserted successfully to test_table.").
  { vm_compute. reflexivity. }
  split; [exact H|].
  destruct (insert_to_db_appends_document_rows "data.json" "test_table"
              test_insert "test.db" test_world _ H)
    as (rows & new & H1 & H2 & H3 & _).
  exists rows, new. auto.
Defined.

(** X2: A document that has no entry for the table: the call inserts nothing,
    commits and returns, whatever the statement and whatever the store
    holds. *)
Theorem insert_to_db_without_table_entry (p t : string) (s : insert_stmt)
    (db : string) (w : world) (items : list (string * pyval)) :
  files w !! p = Some (Json (PDict items)) ->
  dict_lookup t items = None ->
  db ∉ unopenable w ->
  fst (insert_to_db p t s db w) = Ok ("Data inserted successfully to " ++ t ++ ".")
  /\ forall q, store (snd (insert_to_db p t s db w)) q = store w q.
Proof.
  intros Hf Hk Hopen. rewrite insert_to_db_run.
  rewrite decide_False by exact Hopen.
  unfold insert_outcome, staged_rows. rewrite Hf. simpl. rewrite Hk. simpl.
  split; [reflexivity|].
  apply (store_after_reopen w _ db). reflexivity.
Qed.

Lemma insert_to_db_without_table_entry_witness :
  files test_world !! "data.json"
    = Some (Json (PDict [("test_table",
         PList [PDict [("name", PStr "Alice"); ("id", PStr "u1")];
                PDict [("name", PStr "Bob"); ("id", PStr "u2")]])]))
  /\ dict_lookup "sessions"
       [("test_table", PList [PDict [("name", PStr "Alice"); ("id", PStr "u1")];
                PDict [("name", PStr "Bob"); ("id", PStr "u2")]])]
     = None
  /\ ("test.db" ∉ unopenable test_world)
  /\ fst (insert_to_db "data.json" "sessions" test_insert "test.db" test_world)
     = Ok "Data inserted successfully to sessions."
  /\ forall q,
       store (snd (insert_to_db "data.json" "sessions" test_insert "test.db"
                     test_world)) q = store test_world q.
Proof.
  assert (H1 : files test_world !! "data.json"
    = Some (Json (PDict [("test_table",
         PList [PDict [("name", PStr "Alice"); ("id", PStr "u1")];
                PDict [("name", PStr "Bob"); ("id", PStr "u2")]])]))).
  { vm_compute. reflexivity. }
  assert (H3 : "test.db" ∉ unopenable test_world).
  { apply not_elem_of_empty. }
  split; [exact H1|]. split; [reflexivity|]. split; [exact H3|].
  exact (insert_to_db_without_table_entry "data.json" "sessions" test_insert
           "test.db" test_world _ H1 eq_refl H3).
Defined.

(** ** Parameter binding *)







(** ** Primary keys across loads *)

Lemma pk_conflict_with_member (def : table_def) (r : row) (rows : list row) :
  t_pk def <> [] ->
  has_null (key_of (t_pk def) r) = false ->
  r ∈ rows ->
  pk_conflict def r rows = true.
Proof.
  intros Hpk Hnull Hin. unfold pk_conflict.
  destruct (t_pk def) as [|c pk] eqn:Hk; [congruence|].
  rewrite Hnull. simpl negb. rewrite andb_true_l.
  apply existsb_exists. exists r. split; [apply list_elem_of_In, Hin|].
  apply bool_decide_eq_true_2. reflexivity.
Qed.

(** X3: Loading the same rows a second time is refused: when a call has
    returned, a further call with the same file, table and statement raises
    [IntegrityError] on the first row, provided the table has a primary key
    and the key of that row has no NULL; the store stays as the first call
    left it. *)
Theorem insert_to_db_twice_violates_primary_key (p t : string)
    (s : insert_stmt) (db : string) (w : world) (msg : string)
    (def : table_def) (rows : list row) (x : pyval) (xs : list pyval) (r : row) :
  fst (insert_to_db p t s db w) = Ok msg ->
  staged_rows (files w !! p) t = Ok (x :: xs) ->
  objects (store w db) !! into s = Some (Table def rows) ->
  stored_row (store w db) s x = Some r ->
  t_pk def <> [] ->
  has_null (key_of (t_pk def) r) = false ->
  fst (insert_to_db p t s db (snd (insert_to_db p t s db w))) = Raise IntegrityError
  /\ forall q,
       store (snd (insert_to_db p t s db (snd (insert_to_db p t s db w)))) q
       = store (snd (insert_to_db p t s db w)) q.
Proof.
  intros Hok Hs Hd Hr Hpk Hnull.
  assert (Hstore : forall w0,
            fst (insert_to_db p t s db w0) = Raise IntegrityError ->
            fst (insert_to_db p t s db w0) = Raise IntegrityError
            /\ forall q, store (snd (insert_to_db p t s db w0)) q = store w0 q).
  { intros w0 H. split; [exact H|].
    apply (insert_to_db_failure_keeps_store p t s db w0 IntegrityError H). }
  apply Hstore.
  pose proof (insert_to_db_run p t s db w) as Hrun.
  destruct (decide (db ∈ unopenable w)) as [|Hopen];
    [rewrite Hrun in Hok; discriminate|].
  unfold insert_outcome in Hrun. rewrite Hs in Hrun.
  destruct (load_rows false s (x :: xs) (store w db)) as [d'|] eqn:Hl;
    [|rewrite Hrun in Hok; discriminate].
  rewrite Hrun. cbn [snd]. clear Hrun Hok.
  rewrite insert_to_db_run. simpl unopenable.
  rewrite decide_False by exact Hopen.
  simpl files. unfold insert_outcome. rewrite Hs.
  assert (Hst : store (logged [Calling "insert_to_db"; Returned "insert_to_db"]
                         (set_dbs (<[db := d']> (dbs w)) w)) db = d').
  { unfold store. simpl. rewrite lookup_insert_eq. reflexivity. }
  rewrite Hst.
  destruct (load_rows_appends _ _ _ _ _ Hl) as (new & Hnew & _ & Hsame & _ & _).
  specialize (Hsame def rows Hd).
  inversion Hnew as [|? r1 ? new' Hr1 Hrest]; subst.
  rewrite Hr in Hr1. injection Hr1 as <-.
  assert (Hraise : load_rows false s (x :: xs) d' = Raise IntegrityError).
  { simpl in Hl |- *.
    destruct (py_values x) as [params|] eqn:Hv; [|discriminate].
    destruct (sql_insert false s params (store w db)) as [d1|] eqn:Hi; [|discriminate].
    destruct (sql_insert_ok _ _ _ _ _ Hi)
      as (def0 & old & vals & Hd0 & Hc & Hn & Ha & _ & _).
    rewrite Hd in Hd0. injection Hd0 as <- <-.
    assert (Hrow : r = new_row def (columns s) vals).
    { unfold stored_row in Hr. rewrite Hd, Hv, Ha in Hr. congruence. }
    unfold sql_insert. rewrite Hsame, Hc. cbn [negb].
    rewrite Hn, Nat.eqb_refl. cbn [negb]. rewrite Ha, <- Hrow.
    rewrite pk_conflict_with_member; [reflexivity | exact Hpk | exact Hnull |].
    apply elem_of_app. right. left. }
  rewrite Hraise. reflexivity.
Qed.

Lemma insert_to_db_twice_violates_primary_key_witness :
  fst (insert_to_db "snapshot.json" "sessions" (insert_sessions (spec_sql Cascade))
         "local.db" (staged snapshot_ok (initialized [])))
    = Ok "Data inserted successfully to sessions."
  /\ staged_rows (files (staged snapshot_ok (initialized [])) !! "snapshot.json")
       "sessions" = Ok [session_row "s1"]
  /\ objects (store (staged snapshot_ok (initialized [])) "local.db")
       !! into (insert_sessions (spec_sql Cascade))
     = Some (Table sessions_def [])
  /\ stored_row (store (staged snapshot_ok (initialized [])) "local.db")
       (insert_sessions (spec_sql Cascade)) (session_row "s1")
     = Some [("id", SText "s1"); ("start_ts", SText "2024-01-02T00:00:00");
             ("metadata", SText "{}")]
  /\ t_pk sessions_def <> []
  /\ has_null (key_of (t_pk sessions_def)
                 [("id", SText "s1"); ("start_ts", SText "2024-01-02T00:00:00");
                  ("metadata", SText "{}")]) = false
  /\ fst (insert_to_db "snapshot.json" "sessions"
            (insert_sessions (spec_sql Cascade)) "local.db"
            (snd (insert_to_db "snapshot.json" "sessions"
                    (insert_sessions (spec_sql Cascade)) "local.db"
                    (staged snapshot_ok (initialized [])))))
     = Raise IntegrityError.
Proof.
  assert (H1 : fst (insert_to_db "snapshot.json" "sessions"
                      (insert_sessions (spec_sql Cascade))
                      "local.db" (staged snapshot_ok (initialized [])))
               = Ok "Data inserted successfully to sessions.").
  { vm_compute. reflexivity. }
  assert (H2 : staged_rows
                 (files (staged snapshot_ok (initialized [])) !! "snapshot.json")
                 "sessions" = Ok [session_row "s1"]).
  { vm_compute. reflexivity. }
  assert (H3 : objects (store (staged snapshot_ok (initialized [])) "local.db")
                 !! into (insert_sessions (spec_sql Cascade))
               = Some (Table sessions_def [])).
  { vm_compute. reflexivity. }
  assert (H4 : stored_row (store (staged snapshot_ok (initialized [])) "local.db")
                 (insert_sessions (spec_sql Cascade)) (session_row "s1")
               = Some [("id", SText "s1");
                       ("start_ts", SText "2024-01-02T00:00:00");
                       ("metadata", SText "{}")]).
  { vm_compute. reflexivity. }
  assert (H5 : t_pk sessions_def <> []) by discriminate.
  split; [exact H1|]. split; [exact H2|]. split; [exact H3|].
  split; [exact H4|]. split; [exact H5|]. split; [reflexivity|].
  exact (proj1 (insert_to_db_twice_violates_primary_key "snapshot.json"
                  "sessions" (insert_sessions (spec_sql Cascade)) "local.db"
                  (staged snapshot_ok (initialized [])) _ sessions_def []
                  (session_row "s1") [] _ H1 H2 H3 H4 H5 eq_refl)).
Defined.

(** ** A stored table stays well formed *)

Lemma new_row_shaped (def : table_def) (cols : list string) (vals : list sqlval) :
  map fst (new_row def cols vals) = t_cols def.
Proof.
  unfold new_row. rewrite map_map. simpl. apply map_id.
Qed.

Lemma adapt_storable (v : pyval) (x : sqlval) :
  adapt v = Ok x -> storable x = true.
Proof.
  destruct v as [|b|z|s|l|d]; simpl; try discriminate.
  - intros [= <-]. reflexivity.
  - intros [= <-]. destruct b; reflexivity.
  - destruct ((- 2 ^ 63 <=? z) && (z <? 2 ^ 63)) eqn:Hz; [|discriminate].
    intros [= <-]. exact Hz.
  - intros [= <-]. reflexivity.
Qed.

Lemma adapt_all_storable (vs : list pyval) (xs : list sqlval) :
  adapt_all vs = Ok xs -> Forall (fun x => storable x = true) xs.
Proof.
  revert xs. induction vs as [|v vs IH]; intros xs; simpl.
  - intros [= <-]. constructor.
  - destruct (adapt v) as [x|] eqn:Hv; [|discriminate].
    destruct (adapt_all vs) as [xs'|]; [|discriminate].
    intros [= <-]. constructor; [apply (adapt_storable v), Hv | apply IH; reflexivity].
Qed.

Lemma bound_value_storable (c : string) (cols : list string) (vals : list sqlval) :
  Forall (fun x => storable x = true) vals ->
  storable (bound_value c cols vals) = true.
Proof.
  revert vals. induction cols as [|c' cols IH]; intros vals Hv; [reflexivity|].
  destruct vals as [|v vals]; [reflexivity|]. simpl.
  inversion Hv; subst.
  destruct (String.eqb c c'); [assumption | apply IH; assumption].
Qed.

Lemma new_row_storable (def : table_def) (cols : list string) (vals : list sqlval) :
  Forall (fun x => storable x = true) vals ->
  Forall (fun cv => storable (snd cv) = true) (new_row def cols vals).
Proof.
  intros Hv. unfold new_row. apply Forall_map, Forall_forall.
  intros c _. simpl. apply bound_value_storable, Hv.
Qed.

Lemma keys_unique_snoc (def : table_def) (rows : list row) (r : row) :
  keys_unique def rows ->
  pk_conflict def r rows = false ->
  keys_unique def (rows ++ [r]).
Proof.
  unfold keys_unique, pk_conflict.
  destruct (t_pk def) as [|c pk]; [trivial|].
  set (k := c :: pk). intros Hu Hc.
  rewrite map_app, List.filter_app.
  change (map (key_of k) [r]) with [key_of k r]. cbn [List.filter].
  destruct (has_null (key_of k r)) eqn:Hn; cbn [negb andb] in *.
  - rewrite app_nil_r. exact Hu.
  - 
    apply NoDup_app. split; [exact Hu|]. split; [|apply NoDup_singleton].
    intros key Hin Hlast. apply list_elem_of_singleton in Hlast. subst key.
    apply list_elem_of_In, List.filter_In in Hin as [Hin _].
    apply List.in_map_iff in Hin as (r' & Hk & Hr').
    assert (Hex : existsb (fun r' => bool_decide (key_of k r' = key_of k r)) rows
                  = true).
    { apply existsb_exists. exists r'. split; [exact Hr'|].
      apply bool_decide_eq_true_2, Hk. }
    rewrite Hex in Hc. discriminate.
Qed.

(** The three invariants of a table, through a loop of insertions. *)
Lemma load_rows_keeps_table_well_formed (fk : bool) (s : insert_stmt)
    (xs : list pyval) (d d' : database) (def : table_def) (rows : list row) :
  load_rows fk s xs d = Ok d' ->
  objects d !! into s = Some (Table def rows) ->
  keys_unique def rows -> rows_shaped def rows -> rows_storable rows ->
  exists rows',
    objects d' !! into s = Some (Table def rows')
    /\ keys_unique def rows' /\ rows_shaped def rows' /\ rows_storable rows'.
Proof.
  revert d rows. induction xs as [|x xs IH]; intros d rows Hl Hd Hk Hs Hv.
  - injection Hl as <-. exists rows. auto.
  - simpl in Hl. destruct (py_values x) as [params|]; [|discriminate].
    destruct (sql_insert fk s params d) as [d1|] eqn:Hi; [|discriminate].
    destruct (sql_insert_ok _ _ _ _ _ Hi)
      as (def0 & old & vals & Hd0 & _ & _ & Ha & Hpk & ->).
    rewrite Hd in Hd0. injection Hd0 as <- <-.
    apply (IH _ (rows ++ [new_row def (columns s) vals])%list Hl).
    + simpl. apply lookup_insert_eq.
    + apply keys_unique_snoc; assumption.
    + apply Forall_app. split; [exact Hs|].
      constructor; [apply new_row_shaped | constructor].
    + apply Forall_app. split; [exact Hv|].
      constructor; [|constructor].
      apply new_row_storable, (adapt_all_storable params), Ha.
Qed.

(** X4: Whatever a call of [insert_to_db] does, a table of the store that was
    well formed, with unique primary keys, rows that list the table's
    columns and integers of 64 bits, is well formed afterwards. *)
Theorem insert_to_db_keeps_table_well_formed (p t : string) (s : insert_stmt)
    (db : string) (w : world) (def : table_def) (rows : list row) :
  objects (store w db) !! into s = Some (Table def rows) ->
  keys_unique def rows -> rows_shaped def rows -> rows_storable rows ->
  exists rows',
    objects (store (snd (insert_to_db p t s db w)) db) !! into s
      = Some (Table def rows')
    /\ keys_unique def rows' /\ rows_shaped def rows' /\ rows_storable rows'.
Proof.
  intros Hd Hk Hs Hv. rewrite insert_to_db_run.
  destruct (decide (db ∈ unopenable w)).
  { exists rows. auto. }
  unfold insert_outcome.
  destruct (staged_rows (files w !! p) t) as [xs|].
  2:{ cbn [snd]. rewrite (store_after_reopen w _ db) by reflexivity.
      exists rows. auto. }
  destruct (load_rows false s xs (store w db)) as [d'|] eqn:Hl; cbn [snd].
  - assert (Hst : store (logged [Calling "insert_to_db"; Returned "insert_to_db"]
                           (set_dbs (<[db := d']> (dbs w)) w)) db = d').
    { unfold store. simpl. rewrite lookup_insert_eq. reflexivity. }
    rewrite Hst.
    apply (load_rows_keeps_table_well_formed false s xs (store w db) d' def rows);
      assumption.
  - rewrite (store_after_reopen w _ db) by reflexivity. exists rows. auto.
Qed.

Lemma insert_to_db_keeps_table_well_formed_witness :
  objects (store (staged snapshot_ok (initialized [])) "local.db")
    !! into (insert_sessions (spec_sql Cascade)) = Some (Table sessions_def [])
  /\ keys_unique sessions_def []
  /\ rows_shaped sessions_def []
  /\ rows_storable []
  /\ exists rows',
       objects (store (snd (insert_to_db "snapshot.json" "sessions"
                              (insert_sessions (spec_sql Cascade)) "local.db"
                              (staged snapshot_ok (initialized [])))) "local.db")
         !! into (insert_sessions (spec_sql Cascade))
       = Some (Table sessions_def rows')
       /\ keys_unique sessions_def rows'
       /\ rows_shaped sessions_def rows'
       /\ rows_storable rows'.
Proof.
  assert (H1 : objects (store (staged snapshot_ok (initialized [])) "local.db")
                 !! into (insert_sessions (spec_sql Cascade))
               = Some (Table sessions_def [])).
  { vm_compute. reflexivity. }
  assert (H2 : keys_unique sessions_def []) by constructor.
  assert (H3 : rows_shaped sessions_def []) by constructor.
  assert (H4 : rows_storable []) by constructor.
  split; [exact H1|]. split; [exact H2|]. split; [exact H3|]. split; [exact H4|].
  exact (insert_to_db_keeps_table_well_formed "snapshot.json" "sessions"
           (insert_sessions (spec_sql Cascade)) "local.db"
           (staged snapshot_ok (initialized [])) sessions_def [] H1 H2 H3 H4).
Defined.

(** ** What a run leaves alone, and the order of its stages *)

(** X5: Whatever way a run ends, it leaves no connection open, changes no
    database file but the one at its path, and changes the local files by
    at most the one staging file it adds. *)
Theorem run_job_frame (sql : sql_statements) (accepts : pyval -> bool)
    (db : string) (w : world) :
  conns (snd (run_job sql accepts db w)) = conns w
  /\ (forall q, q <> db -> dbs (snd (run_job sql accepts db w)) !! q = dbs w !! q)
  /\ (files (snd (run_job sql accepts db w)) = files w
      \/ exists c, files (snd (run_job sql accepts db w))
                   = <[fresh (dom (files w)) := c]> (files w)).
Proof.
  run_job_paths w accepts db.
  all: cbn [snd]; project_world.
  all: split; [reflexivity|].
  all: split;
    [ intros q Hq; rewrite ?lookup_insert_ne by congruence; reflexivity |].
  all: first [ left; reflexivity | right; eexists; reflexivity ].
Qed.

(** An implication between two entries of an explicit trace. *)
Ltac gated :=
  first [ intros _; apply in_trace; vm_compute; reflexivity
        | let H := fresh in intros H; exfalso; revert H; absent ].

(** An entry is among those of an explicit trace. *)
Ltac listed :=
  solve [ repeat first [ apply list_elem_of_here | apply list_elem_of_further ] ].

(** X6: Each stage gates the next, and the run reports the failure of the stage
    that raised.  In the log of a run a stage is called only if the stage
    before it has returned; when the run raises, its exception is the one a
    stage failed with and the failure of [run_job] with it is the last
    entry; when the run returns, no failure is logged at all. *)
Theorem run_job_stages_gate (sql : sql_statements) (accepts : pyval -> bool)
    (db : string) (w : world) :
  let r := fst (run_job sql accepts db w) in
  let tr := trace w (snd (run_job sql accepts db w)) in
  (Calling "download_latest_json" ∈ tr ->
   Returned "connect_to_storage_account" ∈ tr)
  /\ (Calling "validate_json_string" ∈ tr -> Returned "download_latest_json" ∈ tr)
  /\ (Calling "insert_to_db" ∈ tr -> Returned "validate_json_string" ∈ tr)
  /\ (forall e, r = Raise e ->
      last tr = Some (Failed "run_job" e)
      /\ exists stage, stage <> "run_job" /\ Failed stage e ∈ tr)
  /\ (forall m, r = Ok m ->
      last tr = Some (Returned "run_job") /\ forall f e, Failed f e ∉ tr).
Proof.
  cbv zeta. run_job_paths w accepts db. all: trace_of_run; cbn [fst].
  all: split; [gated|]; split; [gated|]; split; [gated|].
  all: split.
  all: try (intros ? [=]; fail).
  all: first
    [ intros ? [= <-]; split; [reflexivity|];
      first [ exists "connect_to_storage_account"; split; [discriminate | listed]
            | exists "download_latest_json"; split; [discriminate | listed]
            | exists "validate_json_string"; split; [discriminate | listed]
            | exists "insert_to_db"; split; [discriminate | listed] ]
    | intros m _; split; [reflexivity|];
      let H := fresh in
      intros f e H;
      repeat (apply elem_of_cons in H as [H|H]; [discriminate H|]);
      inversion H ].
Qed.

Lemma insert_outcome_appends (v : pyval) (t : string) (s : insert_stmt)
    (d d' : database) :
  insert_outcome (Some (Json v)) t s d = Ok d' ->
  exists rows,
    staged_rows (Some (Json v)) t = Ok rows
    /\ length (table_rows (into s) d')
       = (length (table_rows (into s) d) + length rows)%nat
    /\ (forall t', t' <> into s -> table_rows t' d' = table_rows t' d).
Proof.
  unfold insert_outcome.
  destruct (staged_rows (Some (Json v)) t) as [rows|]; [|discriminate].
  intros Hl. destruct (load_rows_appends _ _ _ _ _ Hl) as (new & Hn & Hr & _ & Ho & _).
  exists rows. split; [reflexivity|]. split.
  - rewrite Hr, length_app. f_equal. symmetry. apply (Forall2_length _ _ _ Hn).
  - intros t' Ht. unfold table_rows. rewrite (Ho t' Ht). reflexivity.
Qed.

(** X7: When the statements of [sql.yaml] write to the tables they are named
    after and a run returns, each of the three tables has grown by exactly
    the number of rows that the staged document lists for it: a snapshot of
    N sessions, 2N events and N edges adds N, 2N and N rows. *)
Theorem run_job_adds_the_rows_of_the_snapshot (sql : sql_statements)
    (accepts : pyval -> bool) (db : string) (w : world) (msg : string) :
  fst (run_job sql accepts db w) = Ok msg ->
  into (insert_sessions sql) = "sessions" ->
  into (insert_events sql) = "events" ->
  into (insert_event_parents sql) = "event_parents" ->
  exists v sessions events edges,
    files (snd (run_job sql accepts db w)) !! fresh (dom (files w))
      = Some (Json v)
    /\ staged_rows (Some (Json v)) "sessions" = Ok sessions
    /\ staged_rows (Some (Json v)) "events" = Ok events
    /\ staged_rows (Some (Json v)) "event_parents" = Ok edges
    /\ length (table_rows "sessions" (store (snd (run_job sql accepts db w)) db))
       = (length (table_rows "sessions" (store w db)) + length sessions)%nat
    /\ length (table_rows "events" (store (snd (run_job sql accepts db w)) db))
       = (length (table_rows "events" (store w db)) + length events)%nat
    /\ length (table_rows "event_parents"
                 (store (snd (run_job sql accepts db w)) db))
       = (length (table_rows "event_parents" (store w db)) + length edges)%nat.
Proof.
  run_job_paths w accepts db. all: cbn [fst snd]; try discriminate.
  intros _ Hs He Hp.
  destruct (insert_outcome_appends _ _ _ _ _ Hload) as (rs & Hrs & Hls & Hos).
  destruct (insert_outcome_appends _ _ _ _ _ Hload0) as (re & Hre & Hle & Hoe).
  destruct (insert_outcome_appends _ _ _ _ _ Hload1) as (rp & Hrp & Hlp & Hop).
  rewrite Hs in *. rewrite He in *. rewrite Hp in *.
  exists v, rs, re, rp.
  project_world. rewrite lookup_insert_eq.
  unfold store. project_world. rewrite !lookup_insert_eq. cbn [default from_option id].
  split; [reflexivity|]. split; [exact Hrs|]. split; [exact Hre|].
  split; [exact Hrp|].
  split.
  { rewrite (Hop "sessions") by discriminate.
    rewrite (Hoe "sessions") by discriminate. exact Hls. }
  split.
  { rewrite (Hop "events") by discriminate. rewrite Hle.
    rewrite (Hos "events") by discriminate. reflexivity. }
  rewrite Hlp. rewrite (Hoe "event_parents") by discriminate.
  rewrite (Hos "event_parents") by discriminate. reflexivity.
Qed.

Lemma run_job_adds_the_rows_of_the_snapshot_witness :
  fst (sample_run [backup_0101; backup_0102]) = Ok "Job ran successfully."
  /\ into (insert_sessions (spec_sql Cascade)) = "sessions"
  /\ into (insert_events (spec_sql Cascade)) = "events"
  /\ into (insert_event_parents (spec_sql Cascade)) = "event_parents"
  /\ length (table_rows "sessions"
               (store (snd (sample_run [backup_0101; backup_0102])) "local.db"))
     = 1%nat
  /\ length (table_rows "events"
               (store (snd (sample_run [backup_0101; backup_0102])) "local.db"))
     = 2%nat
  /\ length (table_rows "event_parents"
               (store (snd (sample_run [backup_0101; backup_0102])) "local.db"))
     = 1%nat.
Proof.
  assert (H : fst (sample_run [backup_0101; backup_0102])
              = Ok "Job ran successfully.").
  { vm_compute. reflexivity. }
  split; [exact H|]. split; [reflexivity|]. split; [reflexivity|].
  split; [reflexivity|].
  destruct (run_job_adds_the_rows_of_the_snapshot (spec_sql Cascade)
              spec_contract "local.db" (initialized [backup_0101; backup_0102])
              _ H eq_refl eq_refl eq_refl)
    as (v & rs & re & rp & Hf & Hrs & Hre & Hrp & Hs & He & Hp).
  assert (Hv : v = snapshot_ok).
  { assert (Hf' : files (snd (sample_run [backup_0101; backup_0102]))
                    !! fresh (dom (files (initialized [backup_0101; backup_0102])))
                  = Some (Json snapshot_ok)).
    { vm_compute. reflexivity. }
    rewrite Hf in Hf'. congruence. }
  subst v.
  vm_compute in Hrs. injection Hrs as <-.
  vm_compute in Hre. injection Hre as <-.
  vm_compute in Hrp. injection Hrp as <-.
  rewrite Hs, He, Hp.
  split; [|split]; vm_compute; reflexivity.
Defined.

(** ** What initialization keeps *)

Lemma exec_ddl_keeps_objects (s : ddl) (d d' : database) (n : string)
    (o : schema_object) :
  exec_ddl s d = Ok d' -> objects d !! n = Some o -> objects d' !! n = Some o.
Proof.
  intros He Hn.
  destruct s as [ine m def|ine m t cols]; simpl in He;
    repeat (case_match; try discriminate); injection He as <-;
    try assumption; simpl;
    (rewrite lookup_insert_ne; [exact Hn | congruence]).
Qed.

Lemma run_script_keeps_objects (script : list ddl) (d : database) (n : string)
    (o : schema_object) :
  objects d !! n = Some o -> objects (snd (run_script script d)) !! n = Some o.
Proof.
  revert d. induction script as [|s script IH]; intros d Hn; [exact Hn|].
  simpl. destruct (exec_ddl s d) as [d'|] eqn:He; [|exact Hn].
  apply IH. apply (exec_ddl_keeps_objects s d d' n o He Hn).
Qed.

(** X8: Whatever the schema script is and however the call ends, [create_db]
    drops nothing: every table, with its rows, and every index of the store
    is there afterwards.  It leaves no connection open, touches no other
    database, no local file and no log entry; when asked for WAL on a path
    that can be opened, the store is in WAL mode afterwards; and when the
    path cannot be opened it raises [OperationalError] and the world is as
    it was. *)
Theorem create_db_keeps_what_exists (sql : sql_statements) (db : string)
    (ensure_wal : bool) (w : world) :
  (forall n o, objects (store w db) !! n = Some o ->
     objects (store (snd (create_db sql db ensure_wal w)) db) !! n = Some o)
  /\ conns (snd (create_db sql db ensure_wal w)) = conns w
  /\ files (snd (create_db sql db ensure_wal w)) = files w
  /\ log (snd (create_db sql db ensure_wal w)) = log w
  /\ (forall q, q <> db ->
      dbs (snd (create_db sql db ensure_wal w)) !! q = dbs w !! q)
  /\ (ensure_wal = true -> db ∉ unopenable w ->
      journal_mode (store (snd (create_db sql db ensure_wal w)) db) = JournalWal)
  /\ (db ∈ unopenable w ->
      create_db sql db ensure_wal w = (Raise OperationalError, w)).
Proof.
  rewrite create_db_run.
  destruct (decide (db ∈ unopenable w)) as [Hu|Hu].
  { cbn [snd]. repeat split; auto. intros; contradiction. }
  cbv zeta. cbn [snd].
  assert (Hst : forall d', store (set_dbs (<[db := d']> (dbs w)) w) db = d').
  { intros d'. unfold store. simpl. rewrite lookup_insert_eq. reflexivity. }
  rewrite Hst.
  split.
  { intros n o Hn. apply run_script_keeps_objects.
    destruct ensure_wal; exact Hn. }
  split; [reflexivity|]. split; [reflexivity|]. split; [reflexivity|].
  split.
  { intros q Hq. simpl. apply lookup_insert_ne. congruence. }
  split; [|intros; contradiction].
  intros -> _. rewrite run_script_journal. reflexivity.
Qed.

(** ** A stream that breaks *)

(** X9: [download_latest_json] creates the temporary file before it reads the
    stream.  When the request is refused nothing is created; when the read
    breaks, the call raises and a new, empty file stays behind. *)
Theorem download_latest_json_partial_file (cc : container_client) (w : world) :
  (forall e, locate cc = Raise e ->
     fst (download_latest_json cc w) = Raise e
     /\ files (snd (download_latest_json cc w)) = files w)
  /\ (locate cc = Ok ReadFails ->
      fst (download_latest_json cc w) = Raise HttpResponseError
      /\ files w !! fresh (dom (files w)) = None
      /\ files (snd (download_latest_json cc w))
         = <[fresh (dom (files w)) := Unparsable]> (files w)).
Proof.
  rewrite download_latest_json_run. cbv zeta.
  split.
  - intros e ->. split; reflexivity.
  - intros ->. split; [reflexivity|]. split; [apply fresh_file | reflexivity].
Qed.

(** ** Removing the store *)

Lemma remove_db_run (p : string) (w : world) :
  remove_db p w =
  (Ok tt, set_files (delete p (files w)) (set_dbs (delete p (dbs w)) w)).
Proof.
  unfold remove_db. rewrite reraise_run, bind_run.
  unfold os_path_exists. cbn [fst snd].
  destruct (bool_decide (is_Some (dbs w !! p)) || bool_decide (is_Some (files w !! p)))
    eqn:He; [unfold os_remove; rewrite He; reflexivity|].
  apply orb_false_iff in He as [Hd Hf].
  apply bool_decide_eq_false_1 in Hd. apply bool_decide_eq_false_1 in Hf.
  apply eq_None_not_Some in Hd. apply eq_None_not_Some in Hf.
  unfold mret, M_ret. f_equal. apply world_eq; try reflexivity; simpl.
  - symmetry. apply delete_id, Hf.
  - symmetry. apply delete_id, Hd.
Qed.

(** X10: [remove_db] returns on a path with a file as on one without:
    [os.remove] is reached only when the file exists (failures of the file
    system other than a missing file are not modelled).  Afterwards the
    path holds nothing, every other path holds what it held, connections
    and log are untouched, and removing again changes nothing more. *)
Theorem remove_db_leaves_no_file (p : string) (w : world) :
  fst (remove_db p w) = Ok tt
  /\ dbs (snd (remove_db p w)) !! p = None
  /\ files (snd (remove_db p w)) !! p = None
  /\ (forall q, q <> p ->
      dbs (snd (remove_db p w)) !! q = dbs w !! q
      /\ files (snd (remove_db p w)) !! q = files w !! q)
  /\ conns (snd (remove_db p w)) = conns w
  /\ log (snd (remove_db p w)) = log w
  /\ remove_db p (snd (remove_db p w)) = (Ok tt, snd (remove_db p w)).
Proof.
  rewrite !remove_db_run. cbn [fst snd]. simpl.
  split; [reflexivity|].
  split; [apply lookup_delete_eq|]. split; [apply lookup_delete_eq|].
  split.
  { intros q Hq. split; apply lookup_delete_ne; congruence. }
  split; [reflexivity|]. split; [reflexivity|].
  f_equal. apply world_eq; try reflexivity; simpl;
    apply delete_id, lookup_delete_eq.
Qed.

(** X11: After [remove_db], [create_db] cannot tell the path from one that never
    held a store: its outcome and the store it leaves are those it gives in
    any world where the path can be opened and has no file. *)
Theorem create_db_after_remove_db (sql : sql_statements) (db : string)
    (ensure_wal : bool) (w w0 : world) :
  db ∉ unopenable w -> db ∉ unopenable w0 -> dbs w0 !! db = None ->
  fst (create_db sql db ensure_wal (snd (remove_db db w)))
    = fst (create_db sql db ensure_wal w0)
  /\ store (snd (create_db sql db ensure_wal (snd (remove_db db w)))) db
     = store (snd (create_db sql db ensure_wal w0)) db.
Proof.
  intros Hw Hw0 Hnone. rewrite remove_db_run. cbn [snd].
  rewrite !create_db_run. simpl unopenable.
  rewrite !decide_False by assumption. cbv zeta. cbn [fst snd].
  assert (Hs : store (set_files (delete db (files w))
                        (set_dbs (delete db (dbs w)) w)) db = store w0 db).
  { unfold store. simpl. rewrite lookup_delete_eq, Hnone. reflexivity. }
  rewrite Hs. split; [reflexivity|].
  set (d1 := snd (run_script _ _)).
  unfold store. simpl. rewrite !lookup_insert_eq. reflexivity.
Qed.

Lemma create_db_after_remove_db_witness :
  count "events" (snd (sample_run [backup_0102])) = 2%nat
  /\ store (snd (create_db (spec_sql Cascade) "local.db" true
                  (snd (remove_db "local.db" (snd (sample_run [backup_0102]))))))
       "local.db"
     = store (initialized []) "local.db".
Proof.
  split; [vm_compute; reflexivity|].
  refine (proj2 (create_db_after_remove_db (spec_sql Cascade) "local.db" true
                   (snd (sample_run [backup_0102])) (world_with []) _ _ _)).
  - vm_compute. set_solver.
  - vm_compute. set_solver.
  - vm_compute. reflexivity.
Defined.

(** ** Emptying the tables *)

Lemma database_eq (d1 d2 : database) :
  objects d1 = objects d2 -> journal_mode d1 = journal_mode d2 -> d1 = d2.
Proof. destruct d1, d2; simpl; intros; subst; reflexivity. Qed.

Lemma sql_delete_all_ok (t : string) (d : database) :
  is_table t d = true ->
  exists d',
    sql_delete_all t d = Ok d'
    /\ journal_mode d' = journal_mode d
    /\ forall n, objects d' !! n
                 = if decide (n = t) then emptied (objects d !! n)
                   else objects d !! n.
Proof.
  unfold is_table, sql_delete_all.
  destruct (objects d !! t) as [[def rows|]|] eqn:Ht; try discriminate.
  intros _. eexists. split; [reflexivity|]. split; [reflexivity|].
  intros n. simpl. destruct (decide (n = t)) as [->|Hn].
  - rewrite lookup_insert_eq, Ht. reflexivity.
  - apply lookup_insert_ne. congruence.
Qed.

Lemma sql_delete_all_raise (t : string) (d : database) :
  is_table t d = false -> sql_delete_all t d = Raise OperationalError.
Proof.
  unfold is_table, sql_delete_all.
  destruct (objects d !! t) as [[def rows|]|]; try discriminate; reflexivity.
Qed.

Lemma is_table_emptied (t : string) (d d' : database) :
  (forall n, objects d' !! n = emptied (objects d !! n)
             \/ objects d' !! n = objects d !! n) ->
  forall b, is_table t d = b -> is_table t d' = b.
Proof.
  intros H b <-. unfold is_table. destruct (H t) as [-> | ->]; [|reflexivity].
  destruct (objects d !! t) as [[]|]; reflexivity.
Qed.

(** The three deletions succeed exactly when the three names are tables;
    they empty these and keep every definition and every other object. *)
Lemma truncated_ok (d : database) :
  Forall (fun t => is_table t d = true) truncated_tables ->
  exists d',
    truncated d = Ok d'
    /\ journal_mode d' = journal_mode d
    /\ forall n, objects d' !! n
                 = if decide (n ∈ truncated_tables) then emptied (objects d !! n)
                   else objects d !! n.
Proof.
  intros H. unfold truncated_tables in H.
  apply Forall_cons in H as [Hp H]. apply Forall_cons in H as [He H].
  apply Forall_cons in H as [Hs _].
  unfold truncated.
  destruct (sql_delete_all_ok _ _ Hp) as (d1 & -> & Hj1 & Ho1).
  assert (He1 : is_table "events" d1 = true).
  { apply (is_table_emptied _ d); [|exact He]. intros n. rewrite Ho1.
    destruct (decide _); auto. }
  destruct (sql_delete_all_ok _ _ He1) as (d2 & -> & Hj2 & Ho2).
  assert (Hs2 : is_table "sessions" d2 = true).
  { apply (is_table_emptied _ d); [|exact Hs]. intros n. rewrite Ho2, Ho1.
    repeat destruct (decide _); subst; try discriminate; auto. }
  destruct (sql_delete_all_ok _ _ Hs2) as (d3 & -> & Hj3 & Ho3).
  exists d3. split; [reflexivity|]. split; [congruence|].
  intros n. rewrite Ho3, Ho2, Ho1.
  destruct (decide (n ∈ truncated_tables)) as [Hin|Hin].
  - unfold truncated_tables in Hin.
    repeat (apply elem_of_cons in Hin as [->|Hin]); [| | |inversion Hin];
      repeat (destruct (decide _) as [Heq|Heq]; try discriminate Heq);
      try reflexivity; exfalso; apply Heq; reflexivity.
  - repeat (destruct (decide _) as [->|?];
            [exfalso; apply Hin; unfold truncated_tables; set_solver|]).
    reflexivity.
Qed.

Lemma truncated_fails (d : database) :
  Exists (fun t => is_table t d = false) truncated_tables ->
  truncated d = Raise OperationalError.
Proof.
  intros Hex. unfold truncated.
  destruct (is_table "event_parents" d) eqn:Hp.
  2:{ rewrite sql_delete_all_raise by exact Hp. reflexivity. }
  destruct (sql_delete_all_ok _ _ Hp) as (d1 & -> & _ & Ho1).
  destruct (is_table "events" d) eqn:He.
  2:{ assert (He1 : is_table "events" d1 = false).
      { apply (is_table_emptied _ d); [|exact He]. intros n. rewrite Ho1.
        destruct (decide _); auto. }
      rewrite sql_delete_all_raise by exact He1. reflexivity. }
  assert (He1 : is_table "events" d1 = true).
  { apply (is_table_emptied _ d); [|exact He]. intros n. rewrite Ho1.
    destruct (decide _); auto. }
  destruct (sql_delete_all_ok _ _ He1) as (d2 & -> & _ & Ho2).
  destruct (is_table "sessions" d) eqn:Hs.
  { exfalso. unfold truncated_tables in Hex.
    repeat (apply Exists_cons in Hex as [Hex|Hex]; [congruence|]).
    inversion Hex. }
  assert (Hs2 : is_table "sessions" d2 = false).
  { apply (is_table_emptied _ d); [|exact Hs]. intros n. rewrite Ho2, Ho1.
    repeat destruct (decide _); subst; try discriminate; auto. }
  rewrite sql_delete_all_raise by exact Hs2. reflexivity.
Qed.

Lemma truncated_raise (d : database) (e : exn) :
  truncated d = Raise e ->
  e = OperationalError /\ Exists (fun t => is_table t d = false) truncated_tables.
Proof.
  intros Hr.
  destruct (decide (Forall (fun t => is_table t d = true) truncated_tables))
    as [Hall|Hnot].
  { destruct (truncated_ok d Hall) as (d' & Hd & _). congruence. }
  apply not_Forall_Exists in Hnot; [|intros t; apply _].
  assert (Hex : Exists (fun t => is_table t d = false) truncated_tables).
  { eapply Exists_impl; [exact Hnot|]. intros t Ht.
    unfold compose in Ht. cbv beta in Ht.
    destruct (is_table t d); [exfalso; apply Ht|]; reflexivity. }
  rewrite (truncated_fails d Hex) in Hr. injection Hr as <-. auto.
Qed.

Lemma con_delete_all_run (base : world) (con : nat) (c : connection) (t : string) :
  con_delete_all con t (with_conn base con c) =
  match sql_delete_all t (c_db c) with
  | Ok d => (Ok tt, with_conn base con (set_c_db d c))
  | Raise e => (Raise e, with_conn base con c)
  end.
Proof.
  unfold con_delete_all. rewrite with_con_run, bind_run. unfold lift.
  destruct (sql_delete_all t (c_db c)); [apply with_conn_put | reflexivity].
Qed.

(** The exact effect of one call of [truncate_db]. *)
Lemma truncate_db_run (db : string) (w : world) :
  truncate_db db w =
  if decide (db ∈ unopenable w) then (UnboundLocalError, w)
  else
    match truncated (store w db) with
    | Ok d' => (Done, set_dbs (<[db := d']> (dbs w)) w)
    | Raise e => (Propagated e, set_dbs (<[db := store w db]> (dbs w)) w)
    end.
Proof.
  unfold truncate_db, sqlite3_connect.
  destruct (decide (db ∈ unopenable w)) as [Hu|Hu]; [reflexivity|].
  cbv zeta.
  set (base := set_dbs (<[db := store w db]> (dbs w)) w).
  set (con := fresh (dom (conns w))).
  set (c0 := {| c_path := db; c_db := store w db; c_foreign_keys := false;
                c_synchronous := SyncFull; c_temp_store := TempDefault |}).
  change (set_conns _ _) with (with_conn base con c0).
  assert (Hfresh : conns base !! con = None) by exact (fresh_conn w).
  assert (Hbase : set_conns (conns base) base = base).
  { apply world_eq; reflexivity. }
  unfold try_finally. rewrite reraise_run.
  unfold truncated.
  rewrite bind_run, con_delete_all_run. change (c_db c0) with (store w db).
  destruct (sql_delete_all "event_parents" (store w db)) as [d1|e].
  2:{ rewrite close_with_conn by exact Hfresh. rewrite Hbase. reflexivity. }
  rewrite bind_run, con_delete_all_run. change (c_db (set_c_db d1 c0)) with d1.
  destruct (sql_delete_all "events" d1) as [d2|e].
  2:{ rewrite close_with_conn by exact Hfresh. rewrite Hbase. reflexivity. }
  rewrite bind_run, con_delete_all_run.
  change (c_db (set_c_db d2 (set_c_db d1 c0))) with d2.
  destruct (sql_delete_all "sessions" d2) as [d3|e].
  2:{ rewrite close_with_conn by exact Hfresh. rewrite Hbase. reflexivity. }
  rewrite bind_run, commit_with_conn.
  rewrite close_with_conn by exact Hfresh.
  unfold con_close. simpl.
  f_equal. apply world_eq; try reflexivity; simpl.
  - apply insert_insert_eq.
  - apply delete_id. exact (fresh_conn w).
Qed.

(** X12: When the path can be opened and the three names are tables of the
    store, [truncate_db] ends normally and commits a store in which each of
    the three tables has its definition and no rows, and every other
    object and the journal mode are as before.  The connection is closed,
    no other database, file or log entry is touched, and truncating again
    changes nothing more. *)
Theorem truncate_db_empties_the_tables (db : string) (w : world) :
  db ∉ unopenable w ->
  Forall (fun t => is_table t (store w db) = true) truncated_tables ->
  fst (truncate_db db w) = Done
  /\ Forall (fun t => table_rows t (store (snd (truncate_db db w)) db) = [])
       truncated_tables
  /\ (forall n, objects (store (snd (truncate_db db w)) db) !! n
                = if decide (n ∈ truncated_tables)
                  then emptied (objects (store w db) !! n)
                  else objects (store w db) !! n)
  /\ journal_mode (store (snd (truncate_db db w)) db) = journal_mode (store w db)
  /\ conns (snd (truncate_db db w)) = conns w
  /\ files (snd (truncate_db db w)) = files w
  /\ log (snd (truncate_db db w)) = log w
  /\ (forall q, q <> db -> dbs (snd (truncate_db db w)) !! q = dbs w !! q)
  /\ truncate_db db (snd (truncate_db db w)) = (Done, snd (truncate_db db w)).
Proof.
  intros Hu Ht.
  assert (Hrun := truncate_db_run db w).
  rewrite decide_False in Hrun by exact Hu.
  destruct (truncated_ok _ Ht) as (d' & Hd & Hj & Ho).
  rewrite Hd in Hrun. rewrite Hrun. cbn [fst snd].
  set (w' := set_dbs (<[db := d']> (dbs w)) w).
  assert (Hst : store w' db = d').
  { unfold store, w'. simpl. rewrite lookup_insert_eq. reflexivity. }
  rewrite Hst.
  split; [reflexivity|].
  split.
  { apply Forall_forall. intros t Hin. unfold table_rows. rewrite Ho.
    rewrite decide_True by exact Hin.
    rewrite Forall_forall in Ht. specialize (Ht t Hin). unfold is_table in Ht.
    destruct (objects (store w db) !! t) as [[]|]; try discriminate. reflexivity. }
  split; [exact Ho|]. split; [exact Hj|].
  split; [reflexivity|]. split; [reflexivity|]. split; [reflexivity|].
  split.
  { intros q Hq. unfold w'. simpl. apply lookup_insert_ne. congruence. }
  rewrite truncate_db_run.
  change (unopenable w') with (unopenable w).
  rewrite decide_False by exact Hu. rewrite Hst.
  assert (Ht' : Forall (fun t => is_table t d' = true) truncated_tables).
  { apply Forall_forall. intros t Hin. rewrite Forall_forall in Ht.
    apply (is_table_emptied _ (store w db)); [|exact (Ht t Hin)]. intros n. rewrite Ho.
    destruct (decide _); auto. }
  destruct (truncated_ok _ Ht') as (d'' & Hd' & Hj' & Ho').
  rewrite Hd'.
  assert (Hsame : d'' = d').
  { apply database_eq; [|exact Hj']. apply map_eq. intros n.
    rewrite Ho', Ho. destruct (decide _); [|reflexivity].
    destruct (objects (store w db) !! n) as [[]|]; reflexivity. }
  rewrite Hsame. f_equal. apply world_eq; try reflexivity.
  unfold w'. simpl. apply insert_insert_eq.
Qed.

Lemma truncate_db_empties_the_tables_witness :
  ("local.db" ∉ unopenable (snd (sample_run [backup_0102])))
  /\ Forall (fun t => is_table t (store (snd (sample_run [backup_0102])) "local.db")
                      = true) truncated_tables
  /\ map (fun t => count t (snd (sample_run [backup_0102]))) truncated_tables
     = [1; 2; 1]%nat
  /\ fst (truncate_db "local.db" (snd (sample_run [backup_0102]))) = Done
  /\ Forall (fun t => table_rows t
                        (store (snd (truncate_db "local.db"
                                       (snd (sample_run [backup_0102]))))
                           "local.db") = [])
       truncated_tables.
Proof.
  assert (H1 : "local.db" ∉ unopenable (snd (sample_run [backup_0102]))).
  { vm_compute. set_solver. }
  assert (H2 : Forall (fun t => is_table t (store (snd (sample_run [backup_0102]))
                                               "local.db") = true)
                 truncated_tables).
  { repeat constructor. }
  split; [exact H1|]. split; [exact H2|]. split; [vm_compute; reflexivity|].
  destruct (truncate_db_empties_the_tables "local.db"
              (snd (sample_run [backup_0102])) H1 H2) as (Hd & He & _).
  split; [exact Hd | exact He].
Defined.

(** X13: A call of [truncate_db] that does not end normally has changed nothing:
    the store at the path holds what it held (deletions made before the
    failing one are dropped with the connection), and connections, files,
    log and the other databases are as before.  On a path that cannot be
    opened the caller gets the [UnboundLocalError] of the [finally] block,
    not the exception of [sqlite3.connect]; otherwise the exception is an
    [OperationalError] and one of the three names is not a table. *)
Theorem truncate_db_failure_changes_nothing (db : string) (w : world) :
  fst (truncate_db db w) <> Done ->
  store (snd (truncate_db db w)) db = store w db
  /\ (forall q, q <> db -> dbs (snd (truncate_db db w)) !! q = dbs w !! q)
  /\ conns (snd (truncate_db db w)) = conns w
  /\ files (snd (truncate_db db w)) = files w
  /\ log (snd (truncate_db db w)) = log w
  /\ (db ∈ unopenable w -> truncate_db db w = (UnboundLocalError, w))
  /\ (db ∉ unopenable w ->
      fst (truncate_db db w) = Propagated OperationalError
      /\ Exists (fun t => is_table t (store w db) = false) truncated_tables).
Proof.
  rewrite truncate_db_run.
  destruct (decide (db ∈ unopenable w)) as [Hu|Hu].
  { intros _. cbn [fst snd]. repeat split; auto; contradiction. }
  destruct (truncated (store w db)) as [d'|e] eqn:Hd.
  { intros H. exfalso. apply H. reflexivity. }
  intros _. cbn [fst snd].
  destruct (truncated_raise _ _ Hd) as [-> Hex].
  split.
  { unfold store. simpl. rewrite lookup_insert_eq. reflexivity. }
  split.
  { intros q Hq. simpl. apply lookup_insert_ne. congruence. }
  repeat split; auto. contradiction.
Qed.

Lemma truncate_db_failure_changes_nothing_witness :
  fst (truncate_db "local.db" without_sessions) <> Done
  /\ map (fun t => count t without_sessions) truncated_tables = [1; 2; 0]%nat
  /\ store (snd (truncate_db "local.db" without_sessions)) "local.db"
     = store without_sessions "local.db".
Proof.
  assert (H : fst (truncate_db "local.db" without_sessions) <> Done).
  { vm_compute. discriminate. }
  split; [exact H|]. split; [vm_compute; reflexivity|].
  exact (proj1 (truncate_db_failure_changes_nothing "local.db" without_sessions H)).
Defined.

(** ** Truncating after a load *)

Lemma emptied_emptied (o : option schema_object) : emptied (emptied o) = emptied o.
Proof. destruct o as [[]|]; reflexivity. Qed.

Lemma load_rows_emptied (fk : bool) (s : insert_stmt) (rows : list pyval)
    (d d' : database) :
  load_rows fk s rows d = Ok d' ->
  journal_mode d' = journal_mode d
  /\ (forall n, n <> into s -> objects d' !! n = objects d !! n)
  /\ emptied (objects d' !! into s) = emptied (objects d !! into s).
Proof.
  revert d. induction rows as [|x rows IH]; intros d Hl.
  - injection Hl as <-. auto.
  - simpl in Hl. destruct (py_values x) as [params|]; [|discriminate].
    destruct (sql_insert fk s params d) as [d1|] eqn:Hi; [|discriminate].
    destruct (sql_insert_ok _ _ _ _ _ Hi)
      as (def & old & vals & Hd & _ & _ & _ & _ & ->).
    destruct (IH _ Hl) as (Hj & Ho & He).
    split; [exact Hj|]. split.
    + intros n Hn. rewrite (Ho n Hn). simpl. apply lookup_insert_ne. congruence.
    + rewrite He. simpl. rewrite lookup_insert_eq, Hd. reflexivity.
Qed.

Lemma is_table_of_emptied (t : string) (d1 d2 : database) :
  emptied (objects d1 !! t) = emptied (objects d2 !! t) ->
  is_table t d1 = is_table t d2.
Proof.
  unfold is_table.
  destruct (objects d1 !! t) as [[]|], (objects d2 !! t) as [[]|];
    simpl; intros H; try discriminate H; reflexivity.
Qed.

(** Databases that differ only in the rows of the three tables truncate to
    the same database. *)
Lemma truncated_ext (d1 d2 : database) :
  journal_mode d1 = journal_mode d2 ->
  (forall n, n ∈ truncated_tables ->
     emptied (objects d1 !! n) = emptied (objects d2 !! n)) ->
  (forall n, n ∉ truncated_tables -> objects d1 !! n = objects d2 !! n) ->
  truncated d1 = truncated d2.
Proof.
  intros Hj Hin Hout.
  assert (Htab : forall t, t ∈ truncated_tables -> is_table t d1 = is_table t d2).
  { intros t Ht. apply is_table_of_emptied, Hin, Ht. }
  destruct (decide (Forall (fun t => is_table t d1 = true) truncated_tables))
    as [Hall|Hnot].
  - assert (Hall2 : Forall (fun t => is_table t d2 = true) truncated_tables).
    { rewrite Forall_forall in *. intros t Ht. rewrite <- (Htab t Ht). auto. }
    destruct (truncated_ok d1 Hall) as (d1' & -> & Hj1 & Ho1).
    destruct (truncated_ok d2 Hall2) as (d2' & -> & Hj2 & Ho2).
    f_equal. apply database_eq; [|congruence].
    apply map_eq. intros n. rewrite Ho1, Ho2.
    destruct (decide (n ∈ truncated_tables)); auto.
  - apply not_Forall_Exists in Hnot; [|intros t; apply _].
    assert (Hex1 : Exists (fun t => is_table t d1 = false) truncated_tables).
    { eapply Exists_impl; [exact Hnot|]. intros t Ht.
      unfold compose in Ht. cbv beta in Ht.
      destruct (is_table t d1); [exfalso; apply Ht|]; reflexivity. }
    assert (Hex2 : Exists (fun t => is_table t d2 = false) truncated_tables).
    { rewrite Exists_exists in *. destruct Hex1 as (t & Ht & Hf).
      exists t. split; [exact Ht|]. rewrite <- (Htab t Ht). exact Hf. }
    rewrite (truncated_fails d1 Hex1), (truncated_fails d2 Hex2). reflexivity.
Qed.

(** X14: Truncating after a load is truncating before it: when [insert_to_db]
    has returned for one of the three tables, [truncate_db] ends as it
    would have ended without the load, and when that is normally it
    commits the same store. *)
Theorem truncate_db_undoes_insert_to_db (p t : string) (s : insert_stmt)
    (db : string) (w : world) (msg : string) :
  into s ∈ truncated_tables ->
  fst (insert_to_db p t s db w) = Ok msg ->
  fst (truncate_db db (snd (insert_to_db p t s db w))) = fst (truncate_db db w)
  /\ (fst (truncate_db db w) = Done ->
      store (snd (truncate_db db (snd (insert_to_db p t s db w)))) db
      = store (snd (truncate_db db w)) db).
Proof.
  intros Hinto. rewrite insert_to_db_run.
  destruct (decide (db ∈ unopenable w)) as [Hu|Hu]; [discriminate|].
  unfold insert_outcome.
  destruct (staged_rows (files w !! p) t) as [rows|]; [|discriminate].
  destruct (load_rows false s rows (store w db)) as [d'|] eqn:Hl; [|discriminate].
  intros _. cbn [snd].
  destruct (load_rows_emptied _ _ _ _ _ Hl) as (Hj & Ho & He).
  rewrite !truncate_db_run.
  change (unopenable (logged _ _)) with (unopenable w).
  rewrite !decide_False by exact Hu.
  assert (Hst : store (logged [Calling "insert_to_db"; Returned "insert_to_db"]
                         (set_dbs (<[db := d']> (dbs w)) w)) db = d').
  { unfold store. simpl. rewrite lookup_insert_eq. reflexivity. }
  rewrite Hst.
  assert (Hsame : truncated d' = truncated (store w db)).
  { apply truncated_ext; [exact Hj| |].
    - intros n Hn. destruct (decide (n = into s)) as [->|Hne]; [exact He|].
      rewrite (Ho n Hne). reflexivity.
    - intros n Hn. apply Ho. intros ->. contradiction. }
  rewrite Hsame.
  destruct (truncated (store w db)) as [d''|e] eqn:Hd; cbn [fst snd].
  - split; [reflexivity|]. intros _.
    unfold store. simpl. rewrite !lookup_insert_eq. reflexivity.
  - split; [reflexivity|]. intros [=].
Qed.

Lemma truncate_db_undoes_insert_to_db_witness :
  into (insert_events (spec_sql Cascade)) ∈ truncated_tables
  /\ fst (insert_to_db "snapshot.json" "events" (insert_events (spec_sql Cascade))
            "local.db" (staged snapshot_dangling (initialized [])))
     = Ok "Data inserted successfully to events."
  /\ fst (truncate_db "local.db"
            (snd (insert_to_db "snapshot.json" "events"
                    (insert_events (spec_sql Cascade)) "local.db"
                    (staged snapshot_dangling (initialized [])))))
     = fst (truncate_db "local.db" (staged snapshot_dangling (initialized []))).
Proof.
  assert (H1 : into (insert_events (spec_sql Cascade)) ∈ truncated_tables).
  { vm_compute. set_solver. }
  assert (H2 : fst (insert_to_db "snapshot.json" "events"
                      (insert_events (spec_sql Cascade))
                      "local.db" (staged snapshot_dangling (initialized [])))
               = Ok "Data inserted successfully to events.").
  { vm_compute. reflexivity. }
  split; [exact H1|]. split; [exact H2|].
  exact (proj1 (truncate_db_undoes_insert_to_db _ _ _ _ _ _ H1 H2)).
Defined.

(** ** Dumping and loading back *)

Lemma dump_tables_run (con : nat) (w : world) (c : connection)
    (tables : list string) (acc : list (string * pyval)) :
  conns w !! con = Some c ->
  dump_tables con tables acc w =
  (fix go (ts : list string) (acc : list (string * pyval)) :=
     match ts with
     | [] => (Ok acc, w)
     | t :: ts' =>
         match select_all t (c_db c) with
         | Ok sel => go ts' (dict_set t (PList (map (zip_dict (fst sel)) (snd sel))) acc)
         | Raise e => (Raise e, w)
         end
     end) tables acc.
Proof.
  intros Hc. revert acc. induction tables as [|t ts IH]; intros acc; [reflexivity|].
  cbn [dump_tables]. rewrite bind_run. unfold con_select_all, with_con at 1.
  rewrite Hc. unfold lift.
  destruct (select_all t (c_db c)) as [sel|e]; [apply IH | reflexivity].
Qed.

(** The exact effect of [dump_json] on an open connection: it reads the
    working copy of the connection and writes one new file. *)
Lemma dump_json_run (con : nat) (w : world) :
  dump_json con w =
  match conns w !! con with
  | None => (Raise ProgrammingError, w)
  | Some c =>
      match dump_document (c_db c) with
      | Ok v =>
          (Ok (fresh (dom (files w))),
           set_files (<[fresh (dom (files w)) := Json v]> (files w)) w)
      | Raise e => (Raise e, w)
      end
  end.
Proof.
  unfold dump_json. rewrite reraise_run, bind_run.
  destruct (conns w !! con) as [c|] eqn:Hc.
  2:{ cbn [dump_tables]. rewrite bind_run. unfold con_select_all, with_con.
      rewrite Hc. reflexivity. }
  rewrite (dump_tables_run con w c _ _ Hc). unfold dump_document.
  destruct (select_all "sessions" (c_db c)) as [s|e]; [|reflexivity].
  destruct (select_all "events" (c_db c)) as [ev|e]; [|reflexivity].
  destruct (select_all "event_parents" (c_db c)) as [p|e]; [|reflexivity].
  cbn [dict_set String.eqb Ascii.eqb Bool.eqb].
  rewrite bind_run. unfold NamedTemporaryFile. cbv zeta.
  rewrite bind_run. unfold write_file. unfold mret, M_ret.
  f_equal. apply world_eq; try reflexivity. simpl. apply insert_insert_eq.
Qed.

Lemma snd_zip_same {A B : Type} (l : list A) (k : list B) :
  length l = length k -> map snd (zip l k) = k.
Proof.
  revert k. induction l as [|a l IH]; intros [|b k] Hlen; try discriminate; [reflexivity|].
  simpl. f_equal. apply IH. simpl in Hlen. congruence.
Qed.

Lemma adapt_py_of_sql (v : sqlval) : storable v = true -> adapt (py_of_sql v) = Ok v.
Proof.
  destruct v as [|z|s]; simpl; try reflexivity. intros ->. reflexivity.
Qed.

Lemma adapt_all_py_of_sql (vs : list sqlval) :
  Forall (fun v => storable v = true) vs -> adapt_all (map py_of_sql vs) = Ok vs.
Proof.
  induction 1 as [|v vs Hv _ IH]; [reflexivity|].
  simpl. rewrite (adapt_py_of_sql v Hv), IH. reflexivity.
Qed.

Lemma row_get_storable (c : string) (r : row) :
  Forall (fun cv => storable (snd cv) = true) r -> storable (row_get c r) = true.
Proof.
  induction 1 as [|[c' v] r Hv _ IH]; [reflexivity|].
  simpl. destruct (String.eqb c c'); [exact Hv | exact IH].
Qed.

Lemma bound_value_of_row (c : string) (cols : list string) (r : row) :
  c ∈ cols -> bound_value c cols (map (fun c' => row_get c' r) cols) = row_get c r.
Proof.
  induction cols as [|c' cols IH]; intros Hin; [inversion Hin|].
  simpl. destruct (String.eqb c c') eqn:He.
  - apply String.eqb_eq in He. subst. reflexivity.
  - apply IH. apply elem_of_cons in Hin as [->|Hin]; [|exact Hin].
    rewrite String.eqb_refl in He. discriminate.
Qed.

Lemma row_of_its_columns (r : row) :
  NoDup (map fst r) -> map (fun c => (c, row_get c r)) (map fst r) = r.
Proof.
  induction r as [|[c v] r IH]; intros Hnd; [reflexivity|].
  simpl in Hnd. apply NoDup_cons in Hnd as [Hnot Hnd].
  cbn [map fst row_get]. rewrite String.eqb_refl. f_equal.
  rewrite <- (IH Hnd) at 2. apply map_ext_in. intros c' Hin.
  destruct (String.eqb c' c) eqn:He; [|reflexivity].
  apply String.eqb_eq in He. subst. exfalso. apply Hnot.
  apply list_elem_of_In. exact Hin.
Qed.

(** A dumped row, bound to the columns of its table, is the row. *)
Lemma new_row_of_dumped (def : table_def) (r : row) :
  NoDup (t_cols def) -> map fst r = t_cols def ->
  new_row def (t_cols def) (map (fun c => row_get c r) (t_cols def)) = r.
Proof.
  intros Hnd Hshape. unfold new_row.
  transitivity (map (fun c => (c, row_get c r)) (t_cols def)).
  - apply map_ext_in. intros c Hin. f_equal.
    apply bound_value_of_row. apply list_elem_of_In. exact Hin.
  - rewrite <- Hshape. apply row_of_its_columns. rewrite Hshape. exact Hnd.
Qed.

Lemma keys_unique_no_conflict (def : table_def) (old rest : list row) (r : row) :
  keys_unique def (old ++ r :: rest) -> pk_conflict def r old = false.
Proof.
  unfold keys_unique, pk_conflict.
  destruct (t_pk def) as [|c pk]; [reflexivity|].
  set (k := c :: pk).
  rewrite map_app, List.filter_app. cbn [map List.filter].
  destruct (has_null (key_of k r)) eqn:Hn; [reflexivity|]. cbn [negb].
  intros Hu. rewrite andb_true_l. apply not_true_is_false. intros Hex.
  apply existsb_exists in Hex as (r' & Hin & Heq).
  apply bool_decide_eq_true_1 in Heq.
  apply NoDup_app in Hu as (_ & Hdis & _).
  apply (Hdis (key_of k r)).
  - apply list_elem_of_In, filter_In. split.
    + rewrite <- Heq. apply in_map. exact Hin.
    + rewrite Hn. reflexivity.
  - apply elem_of_cons. left. reflexivity.
Qed.

Lemma has_cols_own (def : table_def) : has_cols (t_cols def) def = true.
Proof.
  unfold has_cols. apply forallb_forall. intros c Hin.
  apply bool_decide_eq_true_2, list_elem_of_In, Hin.
Qed.

(** Loading the dumped rows of a table into a table of the same definition
    appends exactly those rows. *)
Lemma load_rows_of_dumped (s : insert_stmt) (def : table_def) (rows : list row) :
  columns s = t_cols def -> NoDup (t_cols def) ->
  forall (old : list row) (d : database),
  objects d !! into s = Some (Table def old) ->
  keys_unique def (old ++ rows) -> rows_shaped def rows -> rows_storable rows ->
  exists d',
    load_rows false s
      (map (zip_dict (t_cols def))
         (map (fun r => map (fun c => row_get c r) (t_cols def)) rows)) d = Ok d'
    /\ objects d' !! into s = Some (Table def (old ++ rows)%list).
Proof.
  intros Hcols Hnd. induction rows as [|r rows IH]; intros old d Hd Hu Hsh Hst.
  - exists d. rewrite app_nil_r. split; [reflexivity | exact Hd].
  - apply Forall_cons in Hsh as [Hr Hsh]. apply Forall_cons in Hst as [Hv Hst].
    cbn [map load_rows]. unfold zip_dict at 1. cbn [py_values].
    rewrite snd_zip_same by (rewrite !length_map; reflexivity).
    unfold sql_insert. rewrite Hd, Hcols, has_cols_own. cbn [negb].
    rewrite !length_map, Nat.eqb_refl. cbn [negb].
    rewrite adapt_all_py_of_sql.
    2:{ apply Forall_forall. intros v Hin. apply list_elem_of_In, in_map_iff in Hin
          as (c & <- & _). apply row_get_storable, Hv. }
    cbv zeta. rewrite (new_row_of_dumped def r Hnd Hr).
    rewrite (keys_unique_no_conflict def old rows r Hu). cbn [andb].
    set (d1 := set_objects _ d).
    destruct (IH (old ++ [r])%list d1) as (d' & Hl & Ho).
    + unfold d1. simpl. apply lookup_insert_eq.
    + rewrite <- app_assoc. exact Hu.
    + exact Hsh.
    + exact Hst.
    + exists d'. split; [exact Hl|]. rewrite Ho, <- app_assoc. reflexivity.
Qed.

Lemma dump_document_entry (d : database) (v : pyval) (t : string)
    (def : table_def) (rows : list row) :
  dump_document d = Ok v -> t ∈ truncated_tables ->
  objects d !! t = Some (Table def rows) ->
  staged_rows (Some (Json v)) t
  = Ok (map (zip_dict (t_cols def))
          (map (fun r => map (fun c => row_get c r) (t_cols def)) rows)).
Proof.
  unfold dump_document, select_all. intros Hv Hin Ht.
  destruct (objects d !! "sessions") as [[ds rs|]|] eqn:Hs; try discriminate Hv.
  destruct (objects d !! "events") as [[de re|]|] eqn:He; try discriminate Hv.
  destruct (objects d !! "event_parents") as [[dp rp|]|] eqn:Hp; try discriminate Hv.
  injection Hv as <-. unfold truncated_tables in Hin.
  repeat (apply elem_of_cons in Hin as [->|Hin]); [| | |inversion Hin];
    unfold staged_rows; cbn [py_get dict_lookup String.eqb Ascii.eqb Bool.eqb py_iter fst snd].
  - rewrite Hp in Ht. injection Ht as <- <-. reflexivity.
  - rewrite He in Ht. injection Ht as <- <-. reflexivity.
  - rewrite Hs in Ht. injection Ht as <- <-. reflexivity.
Qed.

(** X15: Round trip: what [dump_json] writes for a table, [insert_to_db] loads
    back row for row.  The table is one of the three, its columns are
    distinct, its rows list these columns, agree with the primary key and
    hold only integers of 64 bits; the statement lists the columns of the
    table, and the receiving table has the same definition and no rows. *)
Theorem dump_json_then_insert_to_db (con : nat) (c : connection) (w : world)
    (p t : string) (def : table_def) (rows : list row) (s : insert_stmt)
    (db : string) :
  conns w !! con = Some c ->
  fst (dump_json con w) = Ok p ->
  t ∈ truncated_tables ->
  objects (c_db c) !! t = Some (Table def rows) ->
  NoDup (t_cols def) ->
  rows_shaped def rows -> keys_unique def rows -> rows_storable rows ->
  into s = t -> columns s = t_cols def ->
  db ∉ unopenable w ->
  objects (store w db) !! t = Some (Table def []) ->
  fst (insert_to_db p t s db (snd (dump_json con w)))
    = Ok ("Data inserted successfully to " ++ t ++ ".")
  /\ table_rows t (store (snd (insert_to_db p t s db (snd (dump_json con w)))) db)
     = rows.
Proof.
  intros Hc Hp Hin Ht Hnd Hsh Hu Hst Hinto Hcols Hopen Hd.
  rewrite dump_json_run, Hc in Hp |- *.
  destruct (dump_document (c_db c)) as [v|e] eqn:Hv; [|discriminate Hp].
  cbn [fst snd] in Hp |- *. injection Hp as <-.
  set (w1 := set_files _ w).
  rewrite insert_to_db_run.
  change (unopenable w1) with (unopenable w).
  rewrite decide_False by exact Hopen.
  assert (Hf : files w1 !! fresh (dom (files w)) = Some (Json v)).
  { unfold w1. simpl. apply lookup_insert_eq. }
  rewrite Hf. unfold insert_outcome.
  rewrite (dump_document_entry _ _ _ _ _ Hv Hin Ht).
  change (store w1 db) with (store w db).
  destruct (load_rows_of_dumped s def rows Hcols Hnd [] (store w db))
    as (d' & Hl & Ho); try assumption.
  { rewrite Hinto. exact Hd. }
  rewrite Hl. cbn [fst snd]. split; [reflexivity|].
  unfold table_rows, store. simpl. rewrite lookup_insert_eq. simpl.
  rewrite <- Hinto, Ho. reflexivity.
Qed.


Lemma dump_json_then_insert_to_db_witness :
  length (table_rows "events" (store dumping_world "local.db")) = 2%nat
  /\ table_rows "events" (store dumping_world "copy.db") = []
  /\ table_rows "events"
       (store (snd (insert_to_db (fresh (dom (files dumping_world))) "events"
                      (insert_events (spec_sql Cascade)) "copy.db"
                      (snd (dump_json 0 dumping_world)))) "copy.db")
     = table_rows "events" (store dumping_world "local.db").
Proof.
  split; [vm_compute; reflexivity|]. split; [vm_compute; reflexivity|].
  refine (proj2 (dump_json_then_insert_to_db 0
            {| c_path := "local.db"; c_db := store dumping_world "local.db";
               c_foreign_keys := false; c_synchronous := SyncFull;
               c_temp_store := TempDefault |}
            dumping_world (fresh (dom (files dumping_world))) "events" events_def
            (table_rows "events" (store dumping_world "local.db"))
            (insert_events (spec_sql Cascade)) "copy.db"
            _ _ _ _ _ _ _ _ _ _ _ _)).
  - vm_compute; reflexivity.
  - vm_compute; reflexivity.
  - vm_compute; set_solver.
  - vm_compute; reflexivity.
  - apply (bool_decide_unpack _); vm_compute; exact I.
  - vm_compute; repeat constructor.
  - apply (bool_decide_unpack _); vm_compute; exact I.
  - apply (bool_decide_unpack _); vm_compute; exact I.
  - reflexivity.
  - reflexivity.
  - vm_compute; set_solver.
  - vm_compute; reflexivity.
Defined.

(** ** Container URLs *)

Lemma nonempty_false (s : string) : nonempty s = false <-> s = "".
Proof. destruct s; simpl; split; intros H; congruence. Qed.

Lemma split_on_cons (sep : ascii) (s : string) :
  exists p ps, split_on sep s = p :: ps.
Proof.
  induction s as [|a s (p & ps & IH)]; [eauto|].
  simpl. destruct (Ascii.eqb a sep); [eauto|]. rewrite IH. eauto.
Qed.

(** The first part of a split is the text before the first separator. *)
Lemma split_on_head (sep : ascii) (s p : string) (ps : list string) :
  split_on sep s = p :: ps ->
  exists tail,
    s = p ++ tail
    /\ (sep ∉ String.list_ascii_of_string p)
    /\ (tail = "" \/ exists tail', tail = String sep tail').
Proof.
  revert p ps. induction s as [|a s IH]; intros p ps Hs.
  - injection Hs as <- <-. exists "". split; [reflexivity|].
    split; [apply not_elem_of_nil | auto].
  - simpl in Hs. destruct (Ascii.eqb a sep) eqn:Ha.
    + apply Ascii.eqb_eq in Ha. subst a. injection Hs as <- <-.
      exists (String sep s). split; [reflexivity|].
      split; [apply not_elem_of_nil | eauto].
    + destruct (split_on sep s) as [|q qs] eqn:Hq.
      { destruct (split_on_cons sep s) as (x & xs & Hx). congruence. }
      injection Hs as <- <-.
      destruct (IH q qs eq_refl) as (tail & -> & Hno & Htail).
      exists tail. split; [reflexivity|]. split; [|exact Htail].
      simpl. intros Hin. apply elem_of_cons in Hin as [->|Hin]; [|contradiction].
      rewrite Ascii.eqb_refl in Ha. discriminate.
Qed.

(** The first non-empty part of a split follows leading separators only. *)
Lemma split_on_first (sep : ascii) (s n : string) (rest : list string) :
  List.filter nonempty (split_on sep s) = n :: rest ->
  exists lead tail,
    s = lead ++ n ++ tail
    /\ Forall (fun a => a = sep) (String.list_ascii_of_string lead)
    /\ nonempty n = true
    /\ (sep ∉ String.list_ascii_of_string n)
    /\ (tail = "" \/ exists tail', tail = String sep tail').
Proof.
  revert n rest. induction s as [|a s IH]; intros n rest Hs; [discriminate Hs|].
  simpl in Hs. destruct (Ascii.eqb a sep) eqn:Ha.
  - apply Ascii.eqb_eq in Ha. subst a. cbn [List.filter nonempty] in Hs.
    destruct (IH n rest Hs) as (lead & tail & -> & Hlead & Hn & Hno & Htail).
    exists (String sep lead), tail. split; [reflexivity|].
    split; [|auto]. simpl. constructor; [reflexivity | exact Hlead].
  - destruct (split_on sep s) as [|q qs] eqn:Hq.
    { destruct (split_on_cons sep s) as (x & xs & Hx). congruence. }
    cbn [List.filter nonempty] in Hs. injection Hs as <- <-.
    destruct (split_on_head sep s q qs Hq) as (tail & -> & Hno & Htail).
    exists "", tail. split; [reflexivity|]. split; [constructor|].
    split; [reflexivity|]. split; [|exact Htail].
    simpl. intros Hin. apply elem_of_cons in Hin as [->|Hin]; [|contradiction].
    rewrite Ascii.eqb_refl in Ha. discriminate.
Qed.

(** No part of a split is non-empty exactly when the text holds separators
    only. *)
Lemma split_on_no_part (sep : ascii) (s : string) :
  List.filter nonempty (split_on sep s) = []
  <-> Forall (fun a => a = sep) (String.list_ascii_of_string s).
Proof.
  induction s as [|a s IH]; [split; [constructor | reflexivity]|].
  simpl. destruct (Ascii.eqb a sep) eqn:Ha.
  - apply Ascii.eqb_eq in Ha. subst a. cbn [List.filter nonempty].
    rewrite IH. split; [intros H; constructor; [reflexivity | exact H]|].
    intros H. apply Forall_cons in H as [_ H]. exact H.
  - destruct (split_on sep s) as [|q qs] eqn:Hq.
    { destruct (split_on_cons sep s) as (x & xs & Hx). congruence. }
    cbn [List.filter nonempty]. split; [discriminate|].
    intros H. apply Forall_cons in H as [-> _].
    rewrite Ascii.eqb_refl in Ha. discriminate.
Qed.

(** X16: What [parse_container_url] returns, whatever [urlparse] makes of the
    URL: [urlparse] has returned, the account URL is scheme, [://] and
    host; the container name is the first segment of the path, that is, the
    path is slashes, the name, and then nothing or a slash and more; the
    name is not empty and has no slash; the SAS is the query, and [None]
    exactly when the query is empty. *)
Theorem parse_container_url_takes_first_segment
    (urlparse : string -> result parsed_url) (url account_url name : string)
    (sas : option string) :
  parse_container_url urlparse url = Ok (account_url, name, sas) ->
  url <> ""
  /\ exists u,
       urlparse url = Ok u
       /\ account_url = scheme u ++ "://" ++ netloc u
       /\ (exists lead tail,
             path u = lead ++ name ++ tail
             /\ Forall (fun a => a = "/"%char) (String.list_ascii_of_string lead)
             /\ (tail = "" \/ exists tail', tail = String "/" tail'))
       /\ nonempty name = true
       /\ ("/"%char ∉ String.list_ascii_of_string name)
       /\ sas <> Some ""
       /\ (sas = None <-> query u = "")
       /\ (forall q, sas = Some q -> q = query u).
Proof.
  unfold parse_container_url.
  destruct (nonempty url) eqn:Hurl; cbn [negb]; [|discriminate].
  destruct (urlparse url) as [u|] eqn:Hu; [|discriminate].
  cbv zeta.
  destruct (negb (nonempty (scheme u)) || negb (nonempty (netloc u)));
    [discriminate|].
  destruct (List.filter nonempty (split_on "/" (path u)))
    as [|n rest] eqn:Hparts; [discriminate|].
  intros [= <- <- <-].
  destruct (split_on_first _ _ _ _ Hparts) as (lead & tail & Hp & Hlead & Hn & Hno & Htail).
  split. { intros ->. discriminate Hurl. }
  exists u. split; [reflexivity|].
  split; [reflexivity|].
  split. { exists lead, tail. auto. }
  split; [exact Hn|]. split; [exact Hno|].
  destruct (query u) as [|a q] eqn:Hq; cbn [nonempty].
  - split; [discriminate|]. split; [split; reflexivity | discriminate].
  - split; [discriminate|]. split; [split; discriminate|].
    intros ? [= <-]. reflexivity.
Qed.

Lemma parse_container_url_takes_first_segment_witness :
  parse_container_url
    (fun _ => Ok {| scheme := "https"; netloc := "acct.blob.core.windows.net";
                    path := "/mycontainer/2024/"; query := "sv=1&sig=x" |})
    "https://acct.blob.core.windows.net/mycontainer/2024/?sv=1&sig=x"
  = Ok ("https://acct.blob.core.windows.net", "mycontainer", Some "sv=1&sig=x")
  /\ ("/"%char ∉ String.list_ascii_of_string "mycontainer").
Proof.
  assert (H : parse_container_url
    (fun _ => Ok {| scheme := "https"; netloc := "acct.blob.core.windows.net";
                    path := "/mycontainer/2024/"; query := "sv=1&sig=x" |})
    "https://acct.blob.core.windows.net/mycontainer/2024/?sv=1&sig=x"
  = Ok ("https://acct.blob.core.windows.net", "mycontainer", Some "sv=1&sig=x")).
  { vm_compute. reflexivity. }
  split; [exact H|].
  destruct (parse_container_url_takes_first_segment _ _ _ _ _ H)
    as (_ & u & _ & _ & _ & _ & Hno & _).
  exact Hno.
Defined.

(** X17: [parse_container_url] raises in exactly three ways: with
    [ValueError] on the empty URL; with the exception of [urlparse], passed
    on as it is, when [urlparse] raises on a URL that is not empty; and with
    [ValueError] when [urlparse] returns a result without scheme, without
    host, or with a path of slashes only (the empty path included).  So as
    long as [urlparse] raises nothing but [ValueError], neither does
    [parse_container_url]. *)
Theorem parse_container_url_rejects (urlparse : string -> result parsed_url)
    (url : string) :
  (forall e,
     parse_container_url urlparse url = Raise e
     <-> (url = "" /\ e = ValueError)
         \/ (url <> "" /\ urlparse url = Raise e)
         \/ (url <> "" /\ e = ValueError
             /\ exists u,
                  urlparse url = Ok u
                  /\ (scheme u = ""
                      \/ netloc u = ""
                      \/ Forall (fun a => a = "/"%char)
                           (String.list_ascii_of_string (path u)))))
  /\ ((forall e, urlparse url = Raise e -> e = ValueError) ->
      forall e, parse_container_url urlparse url = Raise e -> e = ValueError).
Proof.
  assert (Hiff : forall e,
     parse_container_url urlparse url = Raise e
     <-> (url = "" /\ e = ValueError)
         \/ (url <> "" /\ urlparse url = Raise e)
         \/ (url <> "" /\ e = ValueError
             /\ exists u,
                  urlparse url = Ok u
                  /\ (scheme u = ""
                      \/ netloc u = ""
                      \/ Forall (fun a => a = "/"%char)
                           (String.list_ascii_of_string (path u))))).
  { intros e. unfold parse_container_url.
    destruct (nonempty url) eqn:Hurl; cbn [negb].
    2:{ apply nonempty_false in Hurl. subst url. split.
        - intros [= <-]. left. auto.
        - intros [[_ ->]|[[H _]|[H _]]]; [reflexivity | |]; exfalso; apply H; reflexivity. }
    assert (Hne : url <> "") by (intros ->; discriminate Hurl).
    destruct (urlparse url) as [u|e0] eqn:Hu.
    2:{ split.
        - intros [= <-]. right. left. auto.
        - intros [[H _]|[[_ H]|(_ & _ & u & H & _)]];
            [contradiction | injection H as <-; reflexivity | discriminate H]. }
    cbv zeta.
    pose proof (split_on_no_part "/" (path u)) as Hparts.
    destruct (nonempty (scheme u)) eqn:Hs; cbn [negb orb].
    2:{ apply nonempty_false in Hs. split.
        - intros [= <-]. right. right. split; [exact Hne|]. split; [reflexivity|].
          exists u. auto.
        - intros [[H _]|[[_ H]|(_ & -> & _)]];
            [contradiction | discriminate H | reflexivity]. }
    destruct (nonempty (netloc u)) eqn:Hn; cbn [negb].
    2:{ apply nonempty_false in Hn. split.
        - intros [= <-]. right. right. split; [exact Hne|]. split; [reflexivity|].
          exists u. auto.
        - intros [[H _]|[[_ H]|(_ & -> & _)]];
            [contradiction | discriminate H | reflexivity]. }
    destruct (List.filter nonempty (split_on "/" (path u))) as [|n rest].
    - split.
      + intros [= <-]. right. right. split; [exact Hne|]. split; [reflexivity|].
        exists u. split; [reflexivity|]. right. right. apply Hparts. reflexivity.
      + intros [[H _]|[[_ H]|(_ & -> & _)]];
          [contradiction | discriminate H | reflexivity].
    - split; [intros [=]|].
      intros [[H _]|[[_ H]|(_ & _ & u' & [= <-] & [H|[H|H]])]];
        [contradiction | discriminate H | | |].
      + rewrite H in Hs. discriminate Hs.
      + rewrite H in Hn. discriminate Hn.
      + apply Hparts in H. discriminate H. }
  split; [exact Hiff|].
  intros Honly e He. apply Hiff in He as [[_ ->]|[[_ H]|(_ & -> & _)]];
    [reflexivity | apply Honly, H | reflexivity].
Qed.

(** ** What a dump leaves behind *)

(** X18: [dump_json] changes nothing but the local files.  When it raises, no
    file is left behind: the temporary file is created only after the three
    tables have been read; on a closed connection the exception is
    [ProgrammingError], and when one of the three names is not a table of
    the connection's working copy it is [OperationalError].  When it
    returns, the path is that of one new file, and the document in it
    lists, for each of the three tables, as many rows as the working copy
    of the connection holds. *)
Theorem dump_json_writes_one_file (con : nat) (w : world) :
  dbs (snd (dump_json con w)) = dbs w
  /\ conns (snd (dump_json con w)) = conns w
  /\ log (snd (dump_json con w)) = log w
  /\ (forall e, fst (dump_json con w) = Raise e ->
      snd (dump_json con w) = w
      /\ (conns w !! con = None -> e = ProgrammingError)
      /\ (forall c, conns w !! con = Some c ->
          e = OperationalError
          /\ Exists (fun t => is_table t (c_db c) = false) truncated_tables))
  /\ (forall p, fst (dump_json con w) = Ok p ->
      files w !! p = None
      /\ exists c v,
           conns w !! con = Some c
           /\ files (snd (dump_json con w)) = <[p := Json v]> (files w)
           /\ Forall (fun t =>
                exists rows, staged_rows (Some (Json v)) t = Ok rows
                             /\ length rows = length (table_rows t (c_db c)))
                truncated_tables).
Proof.
  rewrite dump_json_run.
  destruct (conns w !! con) as [c|] eqn:Hc.
  2:{ cbn [fst snd].
      split; [reflexivity|]. split; [reflexivity|]. split; [reflexivity|].
      split; [|intros p [=]].
      intros e [= <-]. split; [reflexivity|]. split; [reflexivity|].
      intros c [=]. }
  destruct (dump_document (c_db c)) as [v|e0] eqn:Hv; cbn [fst snd].
  - split; [reflexivity|]. split; [reflexivity|]. split; [reflexivity|].
    split; [intros e [=]|].
    intros p [= <-]. split; [apply fresh_file|].
    exists c, v. split; [reflexivity|]. split; [reflexivity|].
    unfold dump_document, select_all in Hv.
    destruct (objects (c_db c) !! "sessions") as [[ds rs|]|] eqn:Hs;
      try discriminate Hv.
    destruct (objects (c_db c) !! "events") as [[de re|]|] eqn:He;
      try discriminate Hv.
    destruct (objects (c_db c) !! "event_parents") as [[dp rp|]|] eqn:Hp;
      try discriminate Hv.
    injection Hv as <-. unfold truncated_tables, table_rows.
    repeat constructor; eexists; (split; [reflexivity|]);
      rewrite ?Hs, ?He, ?Hp; cbn [fst snd]; rewrite !length_map; reflexivity.
  - split; [reflexivity|]. split; [reflexivity|]. split; [reflexivity|].
    split; [|intros p [=]].
    intros e [= <-]. split; [reflexivity|]. split; [discriminate|].
    intros c' [= <-].
    unfold dump_document, select_all in Hv. unfold truncated_tables, is_table.
    destruct (objects (c_db c) !! "sessions") as [[ds rs|]|] eqn:Hs.
    2,3: injection Hv as <-; split; [reflexivity|];
         apply Exists_cons_tl, Exists_cons_tl, Exists_cons_hd; rewrite Hs; reflexivity.
    destruct (objects (c_db c) !! "events") as [[de re|]|] eqn:He.
    2,3: injection Hv as <-; split; [reflexivity|];
         apply Exists_cons_tl, Exists_cons_hd; rewrite He; reflexivity.
    destruct (objects (c_db c) !! "event_parents") as [[dp rp|]|] eqn:Hp.
    2,3: injection Hv as <-; split; [reflexivity|];
         apply Exists_cons_hd; rewrite Hp; reflexivity.
    discriminate Hv.
Qed.
